(** * Retarget-IO (CAT3): stdio over an XMC UART channel

    A shallow embedding of [cy_retarget_io.c] and the properties of its
    write path, read path, initialisation and shutdown sequence. *)

From Stdlib Require Import ZArith List Bool Lia.
From Stdlib Require Import Strings.Byte Strings.String.
From stdpp Require Import base list.
Import ListNotations.
Local Open Scope Z_scope.

(** ** Outcomes of a call

    Every entry point runs on the whole program state.  It either returns,
    or leaves through [abort()], or halts in a failed [CY_ASSERT], or polls
    for ever, or touches memory outside the caller's buffer. *)

Inductive outcome (S A : Type) : Type :=
| Returns (a : A) (s : S)
| Aborts (s : S)
| Halts (s : S)
| Blocks (s : S)
| Undefined
| Exhausted.

Arguments Returns {S A} a s.
Arguments Aborts {S A} s.
Arguments Halts {S A} s.
Arguments Blocks {S A} s.
Arguments Undefined {S A}.
Arguments Exhausted {S A}.

Definition M (S A : Type) : Type := S -> outcome S A.

Definition ret {S A} (a : A) : M S A := fun s => Returns a s.

Definition bind {S A B} (m : M S A) (k : A -> M S B) : M S B :=
  fun s =>
    match m s with
    | Returns a s' => k a s'
    | Aborts s' => Aborts s'
    | Halts s' => Halts s'
    | Blocks s' => Blocks s'
    | Undefined => Undefined
    | Exhausted => Exhausted
    end.

Definition get {S} : M S S := fun s => Returns s s.
Definition put {S} (s : S) : M S unit := fun _ => Returns tt s.
Definition modify {S} (f : S -> S) : M S unit := fun s => Returns tt (f s).
Definition abort {S A} : M S A := fun s => Aborts s.
Definition CY_HALT {S A} : M S A := fun s => Halts s.

Declare Scope io_scope.
Delimit Scope io_scope with io.
Notation "x <- m ;; k" := (bind m (fun x => k))
  (at level 60, m at next level, right associativity) : io_scope.
Notation "m ;;; k" := (bind m (fun _ => k))
  (at level 60, right associativity) : io_scope.
Local Open Scope io_scope.

(** ** Build configuration *)

Record config : Type := mkConfig {
  (** [CY_RTOS_AWARE] or [COMPONENT_RTOS_AWARE] with plain GCC: the mutex
      layer of lines 46-105 is compiled; otherwise the empty one. *)
  RTOS_AWARE : bool;
  CY_RETARGET_IO_CONVERT_LF_TO_CRLF : bool;
  (** [CY_ASSERT] compiles to nothing. *)
  NDEBUG : bool
}.

(** ** Result codes and characters *)

Definition cy_rslt_t : Type := Z.
Definition CY_RSLT_SUCCESS : cy_rslt_t := 0.

Definition LF : byte := x0a.
Definition CR : byte := x0d.

(** ** The RTOS abstraction, as the module sees it *)

(** Modelled from the spec: [cyabs_rtos.h] is not part of the repository.
    The four mutex calls the module makes are taken as an interface over
    the kernel state (which holds [cy_retarget_io_mutex]); each returns a
    result code and the kernel state after the call. *)
Class CyRtos (K : Type) : Type := {
  cy_rtos_init_mutex : K -> cy_rslt_t * K;
  cy_rtos_get_mutex : K -> cy_rslt_t * K;
  cy_rtos_set_mutex : K -> cy_rslt_t * K;
  cy_rtos_deinit_mutex : K -> cy_rslt_t * K
}.

(** ** The UART channel *)

(** The handle: the address of the channel's register block. *)
Definition XMC_USIC_CH_t : Type := Z.

(** Modelled from the spec: the XMC peripheral driver ([xmc_uart.h]) is not
    part of the repository.  These are the four driver calls the module
    makes. *)
Inductive uart_call : Type :=
| GetStatusFlag (channel : XMC_USIC_CH_t)
| GetReceivedData (channel : XMC_USIC_CH_t)
| ClearStatusFlag (channel : XMC_USIC_CH_t) (flags : Z)
| Transmit (channel : XMC_USIC_CH_t) (data : byte).

(** Modelled from the spec: the peripheral behind the driver, which is not
    part of the repository.  The channel keeps the bytes still to arrive,
    the log of every driver call made on it, a clock counted in busy-wait
    iterations, and the instant until which the transmitter stays busy
    ([None]: it never goes idle). *)
Record usic : Type := mkUsic {
  rx_line : list byte;
  calls : list uart_call;
  clock : Z;
  tx_busy_until : option Z
}.

(** Modelled from the spec: the three status flags the module tests, which
    [xmc_uart.h] defines; one bit each of the channel's status word. *)
Definition XMC_UART_CH_STATUS_FLAG_TRANSFER_STATUS_BUSY : Z := 0x200.
Definition XMC_UART_CH_STATUS_FLAG_RECEIVE_INDICATION : Z := 0x4000.
Definition XMC_UART_CH_STATUS_FLAG_ALTERNATIVE_RECEIVE_INDICATION : Z := 0x8000.

(** Modelled from the spec: the transmit-busy flag and the status word as
    the driver would report them. *)
Definition tx_busy (u : usic) : bool :=
  match tx_busy_until u with
  | None => true
  | Some t => clock u <? t
  end.

Definition status_word (u : usic) : Z :=
  Z.lor (if tx_busy u then XMC_UART_CH_STATUS_FLAG_TRANSFER_STATUS_BUSY else 0)
        (match rx_line u with
         | [] => 0
         | _ :: _ => XMC_UART_CH_STATUS_FLAG_RECEIVE_INDICATION
         end).

Definition log_call (c : uart_call) (u : usic) : usic :=
  mkUsic (rx_line u) (calls u ++ [c]) (clock u) (tx_busy_until u).

Definition pop_rx (u : usic) : usic :=
  mkUsic (tl (rx_line u)) (calls u) (clock u) (tx_busy_until u).

Definition tick (n : Z) (u : usic) : usic :=
  mkUsic (rx_line u) (calls u) (clock u + n) (tx_busy_until u).

(** The bytes handed to the transmitter, oldest first. *)
Fixpoint transmitted (l : list uart_call) : list byte :=
  match l with
  | [] => []
  | Transmit _ c :: l' => c :: transmitted l'
  | _ :: l' => transmitted l'
  end.

(** ** Program state: the file-scope variables, the kernel and the channel *)

Record state (K : Type) : Type := mkState {
  cy_retarget_io_mutex_initialized : bool;
  kernel : K;
  cy_retarget_io_uart_obj : XMC_USIC_CH_t;
  cy_retarget_io_stdout_prev_char : byte;
  (** The CMSIS variable of that name, in Hz. *)
  SystemCoreClock : Z;
  uart : usic
}.

Arguments mkState {K}.
Arguments cy_retarget_io_mutex_initialized {K}.
Arguments kernel {K}.
Arguments cy_retarget_io_uart_obj {K}.
Arguments cy_retarget_io_stdout_prev_char {K}.
Arguments SystemCoreClock {K}.
Arguments uart {K}.

Definition set_mutex_initialized {K} (b : bool) (s : state K) : state K :=
  mkState b (kernel s) (cy_retarget_io_uart_obj s)
          (cy_retarget_io_stdout_prev_char s) (SystemCoreClock s) (uart s).

Definition set_kernel {K} (k : K) (s : state K) : state K :=
  mkState (cy_retarget_io_mutex_initialized s) k (cy_retarget_io_uart_obj s)
          (cy_retarget_io_stdout_prev_char s) (SystemCoreClock s) (uart s).

Definition set_channel {K} (c : XMC_USIC_CH_t) (s : state K) : state K :=
  mkState (cy_retarget_io_mutex_initialized s) (kernel s) c
          (cy_retarget_io_stdout_prev_char s) (SystemCoreClock s) (uart s).

Definition set_prev_char {K} (c : byte) (s : state K) : state K :=
  mkState (cy_retarget_io_mutex_initialized s) (kernel s)
          (cy_retarget_io_uart_obj s) c (SystemCoreClock s) (uart s).

Definition set_uart {K} (u : usic) (s : state K) : state K :=
  mkState (cy_retarget_io_mutex_initialized s) (kernel s)
          (cy_retarget_io_uart_obj s) (cy_retarget_io_stdout_prev_char s)
          (SystemCoreClock s) u.

(** The state at reset: zero-initialised statics. *)
Definition boot {K} (k : K) (hz : Z) (u : usic) : state K :=
  mkState false k 0 x00 hz u.

(** Everything transmitted so far, and the last byte of it. *)
Definition sent {K} (s : state K) : list byte := transmitted (calls (uart s)).

Definition last_sent {K} (s : state K) : byte := List.last (sent s) x00.

(** ** The module, function by function *)

Section RetargetIo.
Context {K : Type} `{CyRtos K}.

Local Abbreviation io := (M (state K)).

(** Modelled from the spec: [CY_ASSERT] of [cy_utils.h], which is not part
    of the repository: nothing under [NDEBUG], otherwise halt when [x] is
    false. *)
Definition CY_ASSERT (cfg : config) (x : bool) : io unit :=
  if NDEBUG cfg then ret tt
  else if x then ret tt else CY_HALT.

(** A call into the kernel: run it on the kernel state, keep the code. *)
Definition rtos_call (f : K -> cy_rslt_t * K) : io cy_rslt_t :=
  fun s => let r := f (kernel s) in Returns (fst r) (set_kernel (snd r) s).

(** *** Mutex layer (lines 46-158) *)

Definition cy_retarget_io_mutex_init (cfg : config) : io cy_rslt_t :=
  if RTOS_AWARE cfg then
    s <- get ;;
    if cy_retarget_io_mutex_initialized s then ret CY_RSLT_SUCCESS
    else
      rslt <- rtos_call cy_rtos_init_mutex ;;
      if CY_RSLT_SUCCESS =? rslt
      then modify (set_mutex_initialized true) ;;; ret rslt
      else ret rslt
  else ret CY_RSLT_SUCCESS.

Definition cy_retarget_io_mutex_acquire (cfg : config) : io unit :=
  if RTOS_AWARE cfg then
    s <- get ;;
    CY_ASSERT cfg (cy_retarget_io_mutex_initialized s) ;;;
    rslt <- rtos_call cy_rtos_get_mutex ;;
    if negb (rslt =? CY_RSLT_SUCCESS) then abort else ret tt
  else ret tt.

Definition cy_retarget_io_mutex_release (cfg : config) : io unit :=
  if RTOS_AWARE cfg then
    s <- get ;;
    CY_ASSERT cfg (cy_retarget_io_mutex_initialized s) ;;;
    rslt <- rtos_call cy_rtos_set_mutex ;;
    if negb (rslt =? CY_RSLT_SUCCESS) then abort else ret tt
  else ret tt.

Definition cy_retarget_io_mutex_deinit (cfg : config) : io unit :=
  if RTOS_AWARE cfg then
    s <- get ;;
    CY_ASSERT cfg (cy_retarget_io_mutex_initialized s) ;;;
    rslt <- rtos_call cy_rtos_deinit_mutex ;;
    if negb (rslt =? CY_RSLT_SUCCESS) then abort else ret tt
  else ret tt.

(** *** Driver calls on the bound channel

    Modelled from the spec: the four functions of [xmc_uart.h] the module
    calls, each on the handle stored in [cy_retarget_io_uart_obj] and each
    entered in the call log. *)

Definition XMC_UART_CH_GetStatusFlag : io Z :=
  fun s =>
    Returns (status_word (uart s))
            (set_uart (log_call (GetStatusFlag (cy_retarget_io_uart_obj s)) (uart s)) s).

Definition XMC_UART_CH_GetReceivedData : io byte :=
  fun s =>
    Returns (hd x00 (rx_line (uart s)))
            (set_uart (pop_rx (log_call (GetReceivedData (cy_retarget_io_uart_obj s))
                                        (uart s))) s).

Definition XMC_UART_CH_ClearStatusFlag (flags : Z) : io unit :=
  fun s =>
    Returns tt
            (set_uart (log_call (ClearStatusFlag (cy_retarget_io_uart_obj s) flags)
                                (uart s)) s).

Definition XMC_UART_CH_Transmit (data : byte) : io unit :=
  fun s =>
    Returns tt
            (set_uart (log_call (Transmit (cy_retarget_io_uart_obj s) data) (uart s)) s).

(** *** Character transport (lines 175-203) *)

(** The polling loop of [cy_retarget_io_getchar]: with no byte on the line
    the status word never changes and the loop never leaves.  The
    destination [char* c] is cell [c] of the caller's array [buf]. *)
Definition cy_retarget_io_getchar (buf : list byte) (c : nat)
  : io (list byte * cy_rslt_t) :=
  flags <- XMC_UART_CH_GetStatusFlag ;;
  if Z.land flags
            (Z.lor XMC_UART_CH_STATUS_FLAG_RECEIVE_INDICATION
                   XMC_UART_CH_STATUS_FLAG_ALTERNATIVE_RECEIVE_INDICATION) =? 0
  then (fun s => Blocks s)
  else
    data <- XMC_UART_CH_GetReceivedData ;;
    if (c <? length buf)%nat then
      XMC_UART_CH_ClearStatusFlag
        (Z.lor XMC_UART_CH_STATUS_FLAG_ALTERNATIVE_RECEIVE_INDICATION
               XMC_UART_CH_STATUS_FLAG_RECEIVE_INDICATION) ;;;
      ret (<[c := data]> buf, CY_RSLT_SUCCESS)
    else fun _ => Undefined.

Definition cy_retarget_io_putchar (c : byte) : io cy_rslt_t :=
  XMC_UART_CH_Transmit c ;;;
  ret CY_RSLT_SUCCESS.

(** *** The write hook of newlib (lines 292-327) *)

(** The body of the [for] loop with [*ptr = c], in its two statements:
    the carriage return of lines 302-307, then the byte itself (lines
    309-312).  Each yields the new value of [rslt]. *)
Definition write_cr (cfg : config) (c : byte) (rslt : cy_rslt_t) : io cy_rslt_t :=
  s <- get ;;
  if CY_RETARGET_IO_CONVERT_LF_TO_CRLF cfg
     && Byte.eqb c LF
     && negb (Byte.eqb (cy_retarget_io_stdout_prev_char s) CR)
  then cy_retarget_io_putchar CR
  else ret rslt.

Definition write_byte (c : byte) (rslt : cy_rslt_t) : io cy_rslt_t :=
  if CY_RSLT_SUCCESS =? rslt then cy_retarget_io_putchar c else ret rslt.

(** One pass up to the [break] test. *)
Definition write_char (cfg : config) (c : byte) (rslt : cy_rslt_t) : io cy_rslt_t :=
  rslt <- write_cr cfg c rslt ;;
  write_byte c rslt.

Fixpoint write_loop (cfg : config) (fuel : nat) (ptr : list byte)
         (nChars len : Z) (rslt : cy_rslt_t) : io Z :=
  if nChars <? len then
    match fuel with
    | O => fun _ => Exhausted
    | S fuel' =>
        match ptr with
        | [] => fun _ => Undefined
        | c :: ptr' =>
            rslt <- write_char cfg c rslt ;;
            if negb (CY_RSLT_SUCCESS =? rslt) then ret nChars
            else
              (if CY_RETARGET_IO_CONVERT_LF_TO_CRLF cfg
               then modify (set_prev_char c) else ret tt) ;;;
              write_loop cfg fuel' ptr' (nChars + 1) len rslt
        end
    end
  else ret nChars.

Definition _write (cfg : config) (fd : Z) (ptr : option (list byte)) (len : Z) : io Z :=
  match ptr with
  | None => ret 0
  | Some buf =>
      cy_retarget_io_mutex_acquire cfg ;;;
      nChars <- write_loop cfg (Z.to_nat len) buf 0 len CY_RSLT_SUCCESS ;;
      cy_retarget_io_mutex_release cfg ;;;
      ret nChars
  end.

(** *** The read hook of newlib (lines 374-400)

    The destination is the caller's array [buf]; [ptr] is the index the
    pointer has reached in it. *)
Fixpoint read_loop (fuel : nat) (buf : list byte) (ptr : nat)
         (nChars len : Z) : io (Z * list byte) :=
  if nChars <? len then
    match fuel with
    | O => fun _ => Exhausted
    | S fuel' =>
        r <- cy_retarget_io_getchar buf ptr ;;
        let buf' := fst r in
        if snd r =? CY_RSLT_SUCCESS then
          let nChars' := nChars + 1 in
          match buf' !! ptr with
          | None => fun _ => Undefined
          | Some c =>
              if Byte.eqb c LF || Byte.eqb c CR
              then ret (nChars', buf')
              else read_loop fuel' buf' (S ptr) nChars' len
          end
        else ret (nChars, buf')
    end
  else ret (nChars, buf).

Definition _read (fd : Z) (ptr : option (list byte)) (len : Z)
  : io (Z * option (list byte)) :=
  match ptr with
  | None => ret (0, None)
  | Some buf =>
      r <- read_loop (Z.to_nat len) buf 0%nat 0 len ;;
      ret (fst r, Some (snd r))
  end.

(** *** Session life cycle (lines 556-596) *)

Definition cy_retarget_io_init (cfg : config) (base : XMC_USIC_CH_t) : io cy_rslt_t :=
  modify (set_channel base) ;;;
  cy_retarget_io_mutex_init cfg.

Definition cy_retarget_io_is_tx_active : io bool :=
  flags <- XMC_UART_CH_GetStatusFlag ;;
  ret (Z.land flags XMC_UART_CH_STATUS_FLAG_TRANSFER_STATUS_BUSY >? 0).

(** [while (--cycle_time_ms > 0) {}] on a [volatile uint32_t]: [spin d]
    runs at most [2 ^ d] decrements and tells whether the loop has left;
    it yields the counter and the number of decrements made. *)
Fixpoint spin (d : nat) (cycle_time_ms : Z) (steps : Z) : Z * Z * bool :=
  match d with
  | O =>
      let c := (cycle_time_ms - 1) mod 2 ^ 32 in
      (c, steps + 1, negb (c >? 0))
  | S d' =>
      let r := spin d' cycle_time_ms steps in
      if snd r then r else spin d' (fst (fst r)) (snd (fst r))
  end.

Definition delay_loop (cycle_time_ms : Z) : io Z :=
  let r := spin 32 cycle_time_ms 0 in
  if snd r
  then modify (fun s => set_uart (tick (snd (fst r)) (uart s)) s) ;;; ret (fst (fst r))
  else fun _ => Exhausted.

Fixpoint deinit_loop (fuel : nat) (timeout_remaining_ms cycle_time_ms : Z)
  : io (Z * Z) :=
  if timeout_remaining_ms >? 0 then
    match fuel with
    | O => fun _ => Exhausted
    | S fuel' =>
        active <- cy_retarget_io_is_tx_active ;;
        if negb active then ret (timeout_remaining_ms, cycle_time_ms)
        else
          cycle_time_ms' <- delay_loop cycle_time_ms ;;
          deinit_loop fuel' (timeout_remaining_ms - 1) cycle_time_ms'
    end
  else ret (timeout_remaining_ms, cycle_time_ms).

Definition cy_retarget_io_deinit (cfg : config) : io unit :=
  s <- get ;;
  r <- deinit_loop 1000 1000 (SystemCoreClock s / 1000) ;;
  CY_ASSERT cfg (negb (fst r =? 0)) ;;;
  cy_retarget_io_mutex_deinit cfg.

(** *** The hooks of the IAR runtime (lines 243-280 and 350-362)

    [yfuns.h] of the IAR runtime is not part of the repository: its three
    constants are parameters here. *)
Variables (_LLIO_STDIN _LLIO_STDOUT _LLIO_ERROR : Z).

Definition __write (cfg : config) (handle : Z) (buffer : option (list byte))
           (size : Z) : io Z :=
  if negb (handle =? _LLIO_STDOUT) then ret _LLIO_ERROR
  else
    match buffer with
    | None => ret 0
    | Some buf => write_loop cfg (Z.to_nat size) buf 0 size CY_RSLT_SUCCESS
    end.

Definition __read (handle : Z) (buffer : option (list byte)) (size : Z)
  : io (Z * option (list byte)) :=
  match negb (handle =? _LLIO_STDIN), buffer with
  | true, _ | false, None => ret (_LLIO_ERROR, buffer)
  | false, Some buf =>
      r <- cy_retarget_io_getchar buf 0%nat ;;
      ret (if CY_RSLT_SUCCESS =? snd r then 1 else 0, Some (fst r))
  end.

End RetargetIo.

(** The values the IAR runtime gives its constants, [size_t] being 32 bits
    wide. *)
Definition yfuns_LLIO_STDIN : Z := 0.
Definition yfuns_LLIO_STDOUT : Z := 1.
Definition yfuns_LLIO_ERROR : Z := 2 ^ 32 - 1.

(** ** A small kernel to run examples on *)

(** Modelled from the spec: a kernel behind [cyabs_rtos.h] with the one
    mutex object of the module.  Creation draws on a budget and fails with
    an error code once the budget is spent; taking a dead or taken mutex,
    giving a dead or free one, and destroying a dead one fail. *)
Record demo_kernel : Type := mkKernel {
  budget : nat;
  created : nat;
  live : bool;
  taken : bool
}.

Definition CY_RTOS_NO_MEMORY : cy_rslt_t := 0x02020000.
Definition CY_RTOS_GENERAL_ERROR : cy_rslt_t := 0x02020001.

#[export] Instance demo_rtos : CyRtos demo_kernel := {
  cy_rtos_init_mutex k :=
    match budget k with
    | O => (CY_RTOS_NO_MEMORY, k)
    | S b => (CY_RSLT_SUCCESS, mkKernel b (S (created k)) true false)
    end;
  cy_rtos_get_mutex k :=
    if live k && negb (taken k)
    then (CY_RSLT_SUCCESS, mkKernel (budget k) (created k) true true)
    else (CY_RTOS_GENERAL_ERROR, k);
  cy_rtos_set_mutex k :=
    if live k && taken k
    then (CY_RSLT_SUCCESS, mkKernel (budget k) (created k) true false)
    else (CY_RTOS_GENERAL_ERROR, k);
  cy_rtos_deinit_mutex k :=
    if live k
    then (CY_RSLT_SUCCESS, mkKernel (budget k) (created k) false false)
    else (CY_RTOS_GENERAL_ERROR, k)
}.

(** Modelled from the spec: a kernel behind [cyabs_rtos.h] that grants the
    mutex but fails every call that gives it back. *)
Inductive jammed_kernel : Type := Jammed.

#[export] Instance jammed_rtos : CyRtos jammed_kernel := {
  cy_rtos_init_mutex k := (CY_RSLT_SUCCESS, k);
  cy_rtos_get_mutex k := (CY_RSLT_SUCCESS, k);
  cy_rtos_set_mutex k := (CY_RTOS_GENERAL_ERROR, k);
  cy_rtos_deinit_mutex k := (CY_RTOS_GENERAL_ERROR, k)
}.

Definition quiet_line (rx : list byte) : usic := mkUsic rx [] 0 (Some 0).

(** Two builds: newlib with an RTOS and line-ending translation, and bare
    metal without translation. *)
Definition rtos_build : config := mkConfig true true false.
Definition raw_build : config := mkConfig false false false.

(** A session on the small kernel after a successful initialisation, with
    the core clock at [hz]. *)
Definition demo_session (hz : Z) (u : usic) : state demo_kernel :=
  mkState true (mkKernel 0 1 true false) 0x48000000 x00 hz u.

(** The same session with nothing on the line and an idle transmitter. *)
Definition ready : state demo_kernel := demo_session 8000000 (quiet_line []).

(** A channel whose transmitter never goes idle. *)
Definition stuck_line : usic := mkUsic [] [] 0 None.

Definition bytes (s : string) : list byte := list_byte_of_string s.

(** ** The effect of the write path on the state, in closed form *)

Section Effects.
Context {K : Type}.
Implicit Types (s : state K) (c : byte).

(** The state after [cy_retarget_io_putchar c]. *)
Definition after_putchar c s : state K :=
  set_uart (log_call (Transmit (cy_retarget_io_uart_obj s) c) (uart s)) s.

(** The state after one pass of the loop of [_write] on [c]. *)
Definition after_char (cfg : config) c s : state K :=
  let s1 :=
    if CY_RETARGET_IO_CONVERT_LF_TO_CRLF cfg && Byte.eqb c LF
       && negb (Byte.eqb (cy_retarget_io_stdout_prev_char s) CR)
    then after_putchar CR s else s in
  let s2 := after_putchar c s1 in
  if CY_RETARGET_IO_CONVERT_LF_TO_CRLF cfg then set_prev_char c s2 else s2.

Definition after_bytes (cfg : config) (l : list byte) s : state K :=
  fold_left (fun s c => after_char cfg c s) l s.

(** The translation state agrees with the line: the previous character
    is the last byte transmitted (zero when nothing was). *)
Definition prev_synced s : Prop :=
  cy_retarget_io_stdout_prev_char s = last_sent s.

End Effects.

Section Locking.
Context {K : Type} `{CyRtos K}.

(** The mutex can be taken and given back in state [s]: the flag is set
    (or asserts are compiled out) and the kernel grants both calls. *)
Definition lock_grants (cfg : config) (s : state K) : Prop :=
  RTOS_AWARE cfg = true ->
  (NDEBUG cfg = true \/ cy_retarget_io_mutex_initialized s = true) /\
  fst (cy_rtos_get_mutex (kernel s)) = CY_RSLT_SUCCESS /\
  fst (cy_rtos_set_mutex (snd (cy_rtos_get_mutex (kernel s)))) = CY_RSLT_SUCCESS.

(** The kernel after one acquire and release. *)
Definition after_lock (cfg : config) (s : state K) : state K :=
  if RTOS_AWARE cfg
  then set_kernel (snd (cy_rtos_set_mutex (snd (cy_rtos_get_mutex (kernel s))))) s
  else s.

End Locking.

(** The same build with line-ending translation switched on or off. *)
Definition with_translation (b : bool) (cfg : config) : config :=
  mkConfig (RTOS_AWARE cfg) b (NDEBUG cfg).

(** ** Two callers inside [_write] at once *)

(** Modelled from the spec: the scheduler and the waiting inside
    [cy_rtos_get_mutex (.., CY_RTOS_NEVER_TIMEOUT)] are not part of the
    repository.  A caller of [_write] with a buffer is at one of the points
    below; it moves by [caller_step], one statement of lines 296-326 at a
    time, on the state shared with the other caller; at the entry it makes
    no step while the mutex is taken.  Any step of either caller may come
    next. *)
Inductive point : Type :=
| Entry (buf : list byte) (len : Z)
| LoopTest (ptr : list byte) (nChars len : Z) (rslt : cy_rslt_t)
| Putchar (ptr : list byte) (nChars len : Z) (rslt : cy_rslt_t)
| Advance (ptr : list byte) (nChars len : Z) (rslt : cy_rslt_t)
| Release (nChars : Z)
| Returned (nChars : Z)
| Crashed.

(** Carry on at point [k a] when the statement returned [a]; a statement
    that does not return ends the caller. *)
Definition resume {A} (s : state demo_kernel) (o : outcome (state demo_kernel) A)
           (k : A -> point) : option (point * state demo_kernel) :=
  match o with
  | Returns a s' => Some (k a, s')
  | Aborts s' | Halts s' | Blocks s' => Some (Crashed, s')
  | Undefined | Exhausted => Some (Crashed, s)
  end.

Definition caller_step (cfg : config) (p : point) (s : state demo_kernel)
  : option (point * state demo_kernel) :=
  match p with
  | Entry buf len =>
      if RTOS_AWARE cfg && taken (kernel s) then None
      else resume s (cy_retarget_io_mutex_acquire cfg s)
                  (fun _ => LoopTest buf 0 len CY_RSLT_SUCCESS)
  | LoopTest ptr nChars len rslt =>
      if nChars <? len then
        match ptr with
        | [] => Some (Crashed, s)
        | c :: _ => resume s (write_cr cfg c rslt s) (fun r => Putchar ptr nChars len r)
        end
      else Some (Release nChars, s)
  | Putchar ptr nChars len rslt =>
      match ptr with
      | [] => Some (Crashed, s)
      | c :: _ =>
          resume s (write_byte c rslt s)
                 (fun r => if negb (CY_RSLT_SUCCESS =? r) then Release nChars
                           else Advance ptr nChars len r)
      end
  | Advance ptr nChars len rslt =>
      match ptr with
      | [] => Some (Crashed, s)
      | c :: ptr' =>
          resume s ((if CY_RETARGET_IO_CONVERT_LF_TO_CRLF cfg
                     then modify (set_prev_char c) else ret tt) s)
                 (fun _ => LoopTest ptr' (nChars + 1) len rslt)
      end
  | Release nChars =>
      resume s (cy_retarget_io_mutex_release cfg s) (fun _ => Returned nChars)
  | Returned _ | Crashed => None
  end.

Inductive sys_step (cfg : config)
  : point * point * state demo_kernel -> point * point * state demo_kernel -> Prop :=
| step_first pA pB s pA' s' :
    caller_step cfg pA s = Some (pA', s') ->
    sys_step cfg (pA, pB, s) (pA', pB, s')
| step_second pA pB s pB' s' :
    caller_step cfg pB s = Some (pB', s') ->
    sys_step cfg (pA, pB, s) (pA, pB', s').

Inductive sys_run (cfg : config)
  : point * point * state demo_kernel -> point * point * state demo_kernel -> Prop :=
| run_done x : sys_run cfg x x
| run_step x y z : sys_step cfg x y -> sys_run cfg y z -> sys_run cfg x z.

(** One caller running alone from point [p] until it returns [n]. *)
Inductive solo (cfg : config)
  : point -> state demo_kernel -> Z -> state demo_kernel -> Prop :=
| solo_returned n s : solo cfg (Returned n) s n s
| solo_step p s p' s1 n s' :
    caller_step cfg p s = Some (p', s1) ->
    solo cfg p' s1 n s' ->
    solo cfg p s n s'.

(** Between taking the mutex and giving it back. *)
Definition critical (p : point) : bool :=
  match p with
  | LoopTest _ _ _ _ | Putchar _ _ _ _ | Advance _ _ _ _ | Release _ => true
  | Entry _ _ | Returned _ | Crashed => false
  end.

(** The mutex exists, nobody holds it, and the flag says it exists. *)
Definition lock_free (s : state demo_kernel) : Prop :=
  live (kernel s) = true /\ taken (kernel s) = false /\
  cy_retarget_io_mutex_initialized s = true.

Definition lock_held (s : state demo_kernel) : Prop :=
  live (kernel s) = true /\ taken (kernel s) = true /\
  cy_retarget_io_mutex_initialized s = true.

(** Where two callers that started together on [s0] can be: each is still
    at the entry, or inside with the mutex and bound to end as [_write]
    would alone, or back with its count. *)
Definition serial_inv (cfg : config) (bufA : list byte) (lenA : Z)
           (bufB : list byte) (lenB : Z) (s0 : state demo_kernel)
           (x : point * point * state demo_kernel) : Prop :=
  let sA := after_lock cfg (after_bytes cfg (firstn (Z.to_nat lenA) bufA) s0) in
  let sAB := after_lock cfg (after_bytes cfg (firstn (Z.to_nat lenB) bufB) sA) in
  let sB := after_lock cfg (after_bytes cfg (firstn (Z.to_nat lenB) bufB) s0) in
  let sBA := after_lock cfg (after_bytes cfg (firstn (Z.to_nat lenA) bufA) sB) in
  let pA := fst (fst x) in
  let pB := snd (fst x) in
  let s := snd x in
  (pA = Entry bufA lenA /\ pB = Entry bufB lenB /\ s = s0) \/
  (critical pA = true /\ pB = Entry bufB lenB /\ lock_held s /\ solo cfg pA s lenA sA) \/
  (pA = Returned lenA /\ pB = Entry bufB lenB /\ s = sA) \/
  (pA = Returned lenA /\ critical pB = true /\ lock_held s /\ solo cfg pB s lenB sAB) \/
  (pA = Returned lenA /\ pB = Returned lenB /\ s = sAB) \/
  (pA = Entry bufA lenA /\ critical pB = true /\ lock_held s /\ solo cfg pB s lenB sB) \/
  (pA = Entry bufA lenA /\ pB = Returned lenB /\ s = sB) \/
  (critical pA = true /\ pB = Returned lenB /\ lock_held s /\ solo cfg pA s lenA sBA) \/
  (pA = Returned lenA /\ pB = Returned lenB /\ s = sBA).

(** ** What a read takes off the line *)

Definition is_terminator (c : byte) : bool := Byte.eqb c LF || Byte.eqb c CR.

(** [read_prefix limit got]: [got] ends at its first terminator or, with
    none, has exactly [limit] bytes. *)
Fixpoint read_prefix (limit : nat) (got : list byte) : bool :=
  match got, limit with
  | [], O => true
  | [], S _ => false
  | _ :: _, O => false
  | c :: got', S limit' =>
      if is_terminator c
      then match got' with [] => true | _ :: _ => false end
      else read_prefix limit' got'
  end.

(** ** The length of one delay loop

    The number of decrements [while (--cycle_time_ms > 0)] makes when
    entered with the counter at [c]: [c] itself from 1 up, and a full turn
    of the 32-bit counter from 0. *)
Definition spin_count (c : Z) : Z := (c - 1) mod 2 ^ 32 + 1.

(** The state a call leaves behind, however it ends. *)
Definition final_state {S A} (o : outcome S A) : option S :=
  match o with
  | Returns _ s | Aborts s | Halts s | Blocks s => Some s
  | Undefined | Exhausted => None
  end.

(** ** Sessions: any sequence of calls into the newlib build *)

Inductive api_call : Type :=
| CallInit (base : XMC_USIC_CH_t)
| CallWrite (fd : Z) (ptr : option (list byte)) (len : Z)
| CallRead (fd : Z) (ptr : option (list byte)) (len : Z)
| CallIsTxActive
| CallDeinit.

Section Sessions.
Context {K : Type} `{CyRtos K}.

Definition after_call (cfg : config) (c : api_call) (s : state K) : option (state K) :=
  match c with
  | CallInit base => final_state (cy_retarget_io_init cfg base s)
  | CallWrite fd ptr len => final_state (_write cfg fd ptr len s)
  | CallRead fd ptr len => final_state (_read fd ptr len s)
  | CallIsTxActive => final_state (cy_retarget_io_is_tx_active s)
  | CallDeinit => final_state (cy_retarget_io_deinit cfg s)
  end.

Inductive reachable (cfg : config) (s0 : state K) : state K -> Prop :=
| reach_start : reachable cfg s0 s0
| reach_call s c s' :
    reachable cfg s0 s -> after_call cfg c s = Some s' -> reachable cfg s0 s'.

(** A statement that sends nothing and leaves the previous character. *)
Definition steady {A} (m : M (state K) A) : Prop :=
  forall s s',
    final_state (m s) = Some s' ->
    cy_retarget_io_stdout_prev_char s' = cy_retarget_io_stdout_prev_char s /\
    sent s' = sent s.

End Sessions.

(** ** The hooks of the ARM runtime (lines 210-234 and 337-343) *)

(** [(char)ch]: the low eight bits of an [int]. *)
Definition char_of_int (ch : Z) : byte :=
  match Byte.of_N (Z.to_N (ch mod 256)) with
  | Some b => b
  | None => x00
  end.

(** A [char] read as an [int]; plain [char] is unsigned on this target. *)
Definition int_of_char (c : byte) : Z := Z.of_N (Byte.to_N c).

Section ArmHooks.
Context {K : Type}.

(** [EOF] of [stdio.h], which is not part of the repository. *)
Variable EOF : Z.

Definition fputc (cfg : config) (ch : Z) : M (state K) Z :=
  rslt <- write_cr cfg (char_of_int ch) CY_RSLT_SUCCESS ;;
  rslt <- write_byte (char_of_int ch) rslt ;;
  (if CY_RETARGET_IO_CONVERT_LF_TO_CRLF cfg
   then if CY_RSLT_SUCCESS =? rslt
        then modify (set_prev_char (char_of_int ch)) else ret tt
   else ret tt) ;;;
  ret (if CY_RSLT_SUCCESS =? rslt then ch else EOF).

(** The local [char c] is a one-cell array for [cy_retarget_io_getchar]. *)
Definition fgetc : M (state K) Z :=
  r <- cy_retarget_io_getchar [x00] 0%nat ;;
  ret (if CY_RSLT_SUCCESS =? snd r
       then int_of_char (hd x00 (fst r)) else EOF).

(** The library handing a string to [fputc], character by character. *)
Fixpoint fputc_each (cfg : config) (l : list Z) : M (state K) unit :=
  match l with
  | [] => ret tt
  | ch :: l' => fputc cfg ch ;;; fputc_each cfg l'
  end.

End ArmHooks.

(** ** Lines a terminal can show

    [crlf_ok prev l]: in [l], coming after the byte [prev], every line
    feed stands right after a carriage return. *)
Fixpoint crlf_ok (prev : byte) (l : list byte) : bool :=
  match l with
  | [] => true
  | c :: l' => (negb (Byte.eqb c LF) || Byte.eqb prev CR) && crlf_ok c l'
  end.

Definition not_cr (c : byte) : bool := negb (Byte.eqb c CR).

(** * Properties *)

Ltac run := unfold bind, ret, get, put, modify, abort, CY_HALT; simpl.

Ltac case_ifs :=
  repeat match goal with
         | |- context [if ?b then _ else _] => destruct b eqn:?; simpl
         end.

Section WriteFacts.
Context {K : Type} `{CyRtos K}.
Implicit Types (s : state K) (c : byte) (cfg : config).

Lemma exists_last_or_nil {A} (l : list A) :
  l = [] \/ exists l' x, l = l' ++ [x].
Proof.
  destruct l as [|a l]; [now left|right].
  destruct (@exists_last _ (a :: l)) as (l' & x & E); [discriminate|]. eauto.
Qed.

Lemma transmitted_app l1 l2 :
  transmitted (l1 ++ l2) = transmitted l1 ++ transmitted l2.
Proof.
  induction l1 as [|[] l1 IH]; simpl; auto. now rewrite IH.
Qed.

Lemma sent_after_putchar c s : sent (after_putchar c s) = sent s ++ [c].
Proof. unfold sent, after_putchar. simpl. now rewrite transmitted_app. Qed.

Lemma putchar_run c s :
  cy_retarget_io_putchar c s = Returns CY_RSLT_SUCCESS (after_putchar c s).
Proof. reflexivity. Qed.

Lemma write_char_run cfg c s :
  write_char cfg c CY_RSLT_SUCCESS s =
  Returns CY_RSLT_SUCCESS
    (after_putchar c
       (if CY_RETARGET_IO_CONVERT_LF_TO_CRLF cfg && Byte.eqb c LF
           && negb (Byte.eqb (cy_retarget_io_stdout_prev_char s) CR)
        then after_putchar CR s else s)).
Proof.
  unfold write_char, write_cr, write_byte. run.
  destruct (CY_RETARGET_IO_CONVERT_LF_TO_CRLF cfg && Byte.eqb c LF
            && negb (Byte.eqb (cy_retarget_io_stdout_prev_char s) CR));
    reflexivity.
Qed.

Lemma write_loop_run cfg : forall fuel ptr nChars len s,
  nChars <= len ->
  len - nChars <= Z.of_nat fuel ->
  len - nChars <= Z.of_nat (length ptr) ->
  write_loop cfg fuel ptr nChars len CY_RSLT_SUCCESS s =
  Returns len (after_bytes cfg (firstn (Z.to_nat (len - nChars)) ptr) s).
Proof.
  induction fuel as [|fuel IH]; intros ptr nChars len s Hle Hfuel Hbuf.
  - assert (nChars = len) by lia. subst. simpl.
    rewrite Z.ltb_irrefl, Z.sub_diag. reflexivity.
  - simpl. destruct (Z.ltb_spec nChars len) as [Hlt|Hge].
    + destruct ptr as [|c ptr]; [simpl in Hbuf; lia|].
      unfold bind at 1. rewrite write_char_run. simpl.
      replace (Z.to_nat (len - nChars)) with (S (Z.to_nat (len - (nChars + 1)))) by lia.
      simpl firstn. simpl in Hbuf.
      change (after_bytes cfg (c :: ?l) ?x) with (after_bytes cfg l (after_char cfg c x)).
      unfold bind at 1.
      destruct (CY_RETARGET_IO_CONVERT_LF_TO_CRLF cfg) eqn:Hc; run;
        rewrite IH by lia; unfold after_char; rewrite Hc; reflexivity.
    + assert (nChars = len) by lia. subst. rewrite Z.sub_diag. reflexivity.
Qed.

Lemma after_bytes_app cfg l1 l2 s :
  after_bytes cfg (l1 ++ l2) s = after_bytes cfg l2 (after_bytes cfg l1 s).
Proof. unfold after_bytes. apply fold_left_app. Qed.

Lemma kernel_after_char cfg c s : kernel (after_char cfg c s) = kernel s.
Proof. unfold after_char. case_ifs; reflexivity. Qed.

Lemma flag_after_char cfg c s :
  cy_retarget_io_mutex_initialized (after_char cfg c s) =
  cy_retarget_io_mutex_initialized s.
Proof. unfold after_char. case_ifs; reflexivity. Qed.

Lemma after_char_set_kernel cfg c k s :
  after_char cfg c (set_kernel k s) = set_kernel k (after_char cfg c s).
Proof. unfold after_char. case_ifs; reflexivity. Qed.

Lemma after_bytes_set_kernel cfg l : forall k s,
  after_bytes cfg l (set_kernel k s) = set_kernel k (after_bytes cfg l s).
Proof.
  induction l as [|c l IH]; intros k s; [reflexivity|].
  change (after_bytes cfg (c :: l) ?x) with (after_bytes cfg l (after_char cfg c x)).
  now rewrite after_char_set_kernel, IH.
Qed.

Lemma kernel_after_bytes cfg l : forall s, kernel (after_bytes cfg l s) = kernel s.
Proof.
  induction l as [|c l IH]; intros s; [reflexivity|].
  change (after_bytes cfg (c :: l) s) with (after_bytes cfg l (after_char cfg c s)).
  now rewrite IH, kernel_after_char.
Qed.

Lemma flag_after_bytes cfg l : forall s,
  cy_retarget_io_mutex_initialized (after_bytes cfg l s) =
  cy_retarget_io_mutex_initialized s.
Proof.
  induction l as [|c l IH]; intros s; [reflexivity|].
  change (after_bytes cfg (c :: l) s) with (after_bytes cfg l (after_char cfg c s)).
  now rewrite IH, flag_after_char.
Qed.

(** What one pass of the loop puts on the line. *)
Lemma sent_after_char cfg c s :
  sent (after_char cfg c s) =
  sent s ++
  (if CY_RETARGET_IO_CONVERT_LF_TO_CRLF cfg && Byte.eqb c LF
      && negb (Byte.eqb (cy_retarget_io_stdout_prev_char s) CR)
   then [CR; c] else [c]).
Proof.
  unfold after_char.
  destruct (CY_RETARGET_IO_CONVERT_LF_TO_CRLF cfg); simpl;
    destruct (Byte.eqb c LF && negb (Byte.eqb (cy_retarget_io_stdout_prev_char s) CR));
    unfold sent; simpl; rewrite ?transmitted_app; simpl;
    rewrite <- ?app_assoc; reflexivity.
Qed.

Lemma last_snoc (l : list byte) (x d : byte) : List.last (l ++ [x]) d = x.
Proof. apply last_last. Qed.

Lemma last_sent_after_char cfg c s : last_sent (after_char cfg c s) = c.
Proof.
  unfold last_sent. rewrite sent_after_char.
  destruct (_ && _ && _).
  - change [CR; c] with ([CR] ++ [c]). rewrite app_assoc. apply last_snoc.
  - apply last_snoc.
Qed.

Lemma prev_after_char cfg c s :
  CY_RETARGET_IO_CONVERT_LF_TO_CRLF cfg = true ->
  cy_retarget_io_stdout_prev_char (after_char cfg c s) = c.
Proof. intros Hc. unfold after_char. rewrite Hc. reflexivity. Qed.

Lemma synced_after_char cfg c s :
  CY_RETARGET_IO_CONVERT_LF_TO_CRLF cfg = true ->
  prev_synced (after_char cfg c s).
Proof.
  intros Hc. unfold prev_synced.
  now rewrite last_sent_after_char, prev_after_char.
Qed.

Lemma synced_after_bytes cfg l s :
  CY_RETARGET_IO_CONVERT_LF_TO_CRLF cfg = true ->
  prev_synced s -> prev_synced (after_bytes cfg l s).
Proof.
  intros Hc Hs. destruct (exists_last_or_nil l) as [->|(l' & c & ->)]; [exact Hs|].
  rewrite after_bytes_app. apply synced_after_char, Hc.
Qed.

End WriteFacts.

Section WriteCall.
Context {K : Type} `{CyRtos K}.
Implicit Types (s : state K) (c : byte) (cfg : config).

Lemma sent_set_kernel k s : sent (set_kernel k s) = sent s.
Proof. reflexivity. Qed.

Lemma sent_after_lock cfg s : sent (after_lock cfg s) = sent s.
Proof. unfold after_lock. destruct (RTOS_AWARE cfg); reflexivity. Qed.

Lemma prev_after_lock cfg s :
  cy_retarget_io_stdout_prev_char (after_lock cfg s) =
  cy_retarget_io_stdout_prev_char s.
Proof. unfold after_lock. destruct (RTOS_AWARE cfg); reflexivity. Qed.

Lemma synced_after_lock cfg s : prev_synced s -> prev_synced (after_lock cfg s).
Proof.
  unfold prev_synced, last_sent. now rewrite sent_after_lock, prev_after_lock.
Qed.

Lemma acquire_run cfg s :
  lock_grants cfg s ->
  cy_retarget_io_mutex_acquire cfg s =
  Returns tt (if RTOS_AWARE cfg
              then set_kernel (snd (cy_rtos_get_mutex (kernel s))) s else s).
Proof.
  unfold lock_grants, cy_retarget_io_mutex_acquire, CY_ASSERT.
  destruct (RTOS_AWARE cfg); [|reflexivity].
  intros Hg. destruct (Hg eq_refl) as (Ha & Hget & _).
  run. unfold rtos_call.
  destruct Ha as [-> | ->]; [|destruct (NDEBUG cfg)]; simpl;
    rewrite Hget; reflexivity.
Qed.

Lemma release_run cfg s :
  (RTOS_AWARE cfg = true ->
   (NDEBUG cfg = true \/ cy_retarget_io_mutex_initialized s = true) /\
   fst (cy_rtos_set_mutex (kernel s)) = CY_RSLT_SUCCESS) ->
  cy_retarget_io_mutex_release cfg s =
  Returns tt (if RTOS_AWARE cfg
              then set_kernel (snd (cy_rtos_set_mutex (kernel s))) s else s).
Proof.
  unfold cy_retarget_io_mutex_release, CY_ASSERT.
  destruct (RTOS_AWARE cfg); [|reflexivity].
  intros Hg. destruct (Hg eq_refl) as (Ha & Hset).
  run. unfold rtos_call.
  destruct Ha as [-> | ->]; [|destruct (NDEBUG cfg)]; simpl;
    rewrite Hset; reflexivity.
Qed.

(** A write call whose lock is granted sends the first [len] bytes of the
    buffer through the loop and returns [len]. *)
Lemma write_run cfg fd buf len s :
  lock_grants cfg s ->
  0 <= len <= Z.of_nat (length buf) ->
  _write cfg fd (Some buf) len s =
  Returns len (after_lock cfg (after_bytes cfg (firstn (Z.to_nat len) buf) s)).
Proof.
  intros Hg Hlen. unfold _write.
  unfold bind at 1. rewrite (acquire_run cfg s Hg).
  unfold bind at 1. rewrite write_loop_run by lia.
  rewrite Z.sub_0_r.
  unfold bind at 1. rewrite release_run.
  - unfold ret, after_lock. destruct (RTOS_AWARE cfg); [|reflexivity].
    rewrite after_bytes_set_kernel, kernel_after_bytes. reflexivity.
  - intros HR. destruct (Hg HR) as (Ha & Hget & Hset). rewrite HR.
    rewrite after_bytes_set_kernel. simpl. rewrite flag_after_bytes. auto.
Qed.

End WriteCall.

Section LineEndings.
Context {K : Type} `{CyRtos K}.
Implicit Types (s : state K) (c : byte) (cfg : config).

Lemma byte_eqb_spec (x y : byte) : reflect (x = y) (Byte.eqb x y).
Proof.
  destruct (Byte.eqb x y) eqn:E; constructor.
  - now apply Byte.byte_dec_bl.
  - now apply Byte.eqb_false.
Qed.

Lemma firstn_pre {A} (pre post : list A) :
  firstn (Z.to_nat (Z.of_nat (length pre))) (pre ++ post) = pre.
Proof.
  rewrite Nat2Z.id, firstn_app, Nat.sub_diag, firstn_all. simpl.
  apply app_nil_r.
Qed.

Lemma firstn_pre_one {A} (pre post : list A) (b : A) :
  firstn (Z.to_nat (Z.of_nat (length pre) + 1)) (pre ++ b :: post) = pre ++ [b].
Proof.
  replace (Z.to_nat (Z.of_nat (length pre) + 1)) with (length pre + 1)%nat by lia.
  rewrite firstn_app, firstn_all2 by lia.
  replace (length pre + 1 - length pre)%nat with 1%nat by lia. reflexivity.
Qed.

(** The bytes one pass adds to the line, read off the line itself. *)
Lemma sent_after_char_synced cfg c s :
  CY_RETARGET_IO_CONVERT_LF_TO_CRLF cfg = true ->
  prev_synced s ->
  (c = LF /\ last_sent s <> CR -> sent (after_char cfg c s) = sent s ++ [CR; c]) /\
  (~ (c = LF /\ last_sent s <> CR) -> sent (after_char cfg c s) = sent s ++ [c]).
Proof.
  intros Hc Hs. rewrite sent_after_char, Hc, Hs. simpl.
  destruct (byte_eqb_spec c LF) as [->|Hn];
    destruct (byte_eqb_spec (last_sent s) CR) as [Hl|Hl]; simpl;
    split; intros Hx; try reflexivity; tauto.
Qed.

(** C1: with translation enabled, a carriage return goes out immediately
    before a written byte [b] exactly when [b] is a line feed and the byte
    transmitted before it was not a carriage return, and [b] itself always
    goes out next.  Writing a lone line feed after anything but a carriage
    return puts CR LF on the line; writing CR LF puts CR LF on the line. *)
Theorem crlf_before_line_feed cfg fd (pre post : list byte) (b : byte) s :
  CY_RETARGET_IO_CONVERT_LF_TO_CRLF cfg = true ->
  lock_grants cfg s ->
  prev_synced s ->
  exists s1 s2,
    _write cfg fd (Some (pre ++ b :: post)) (Z.of_nat (length pre)) s
    = Returns (Z.of_nat (length pre)) s1 /\
    _write cfg fd (Some (pre ++ b :: post)) (Z.of_nat (length pre) + 1) s
    = Returns (Z.of_nat (length pre) + 1) s2 /\
    (b = LF /\ last_sent s1 <> CR -> sent s2 = sent s1 ++ [CR; b]) /\
    (~ (b = LF /\ last_sent s1 <> CR) -> sent s2 = sent s1 ++ [b]) /\
    (last_sent s <> CR ->
     exists s', _write cfg fd (Some [LF]) 1 s = Returns 1 s' /\
                sent s' = sent s ++ [CR; LF]) /\
    (exists s', _write cfg fd (Some [CR; LF]) 2 s = Returns 2 s' /\
                sent s' = sent s ++ [CR; LF]).
Proof.
  intros Hc Hg Hs.
  exists (after_lock cfg (after_bytes cfg pre s)),
         (after_lock cfg (after_bytes cfg (pre ++ [b]) s)).
  assert (Hlen : Z.of_nat (length (pre ++ b :: post)) = Z.of_nat (length pre) + 1 + Z.of_nat (length post)).
  { rewrite length_app. simpl. lia. }
  split; [|split].
  - rewrite write_run by (auto; lia). now rewrite firstn_pre.
  - rewrite write_run by (auto; lia). now rewrite firstn_pre_one.
  - pose proof (synced_after_bytes cfg pre s Hc Hs) as Hs1.
    pose proof (sent_after_char_synced cfg b _ Hc Hs1) as [Hyes Hno].
    unfold last_sent in *. rewrite !sent_after_lock, after_bytes_app.
    split; [exact Hyes|split; [exact Hno|]].
    split.
    + intros Hl. eexists. split; [apply write_run; [auto|simpl; lia]|].
      rewrite sent_after_lock.
      apply (proj1 (sent_after_char_synced cfg LF s Hc Hs)). auto.
    + eexists. split; [apply write_run; [auto|simpl; lia]|].
      rewrite sent_after_lock.
      change (firstn (Z.to_nat 2) [CR; LF]) with ([CR] ++ [LF]).
      rewrite after_bytes_app.
      change (after_bytes cfg [LF] ?y) with (after_char cfg LF y).
      change (after_bytes cfg [CR] s) with (after_char cfg CR s).
      rewrite (sent_after_char cfg LF), Hc, prev_after_char by exact Hc.
      rewrite (sent_after_char cfg CR). simpl.
      rewrite Bool.andb_false_r. now rewrite <- app_assoc.
Qed.

End LineEndings.

Section AcrossCalls.
Context {K : Type} `{CyRtos K}.
Implicit Types (s : state K) (c : byte) (cfg : config).

Lemma lock_grants_same cfg s s' :
  kernel s' = kernel s ->
  cy_retarget_io_mutex_initialized s' = cy_retarget_io_mutex_initialized s ->
  lock_grants cfg s -> lock_grants cfg s'.
Proof. unfold lock_grants. intros -> ->. auto. Qed.

Lemma kernel_after_lock_bytes cfg l s :
  kernel (after_lock cfg (after_bytes cfg l s)) = kernel (after_lock cfg s).
Proof.
  unfold after_lock. destruct (RTOS_AWARE cfg); simpl;
    now rewrite ?kernel_after_bytes.
Qed.

Lemma flag_after_lock cfg s :
  cy_retarget_io_mutex_initialized (after_lock cfg s) =
  cy_retarget_io_mutex_initialized s.
Proof. unfold after_lock. destruct (RTOS_AWARE cfg); reflexivity. Qed.

Lemma sent_after_bytes_grows cfg l : forall s,
  exists tail, sent (after_bytes cfg l s) = sent s ++ tail.
Proof.
  induction l as [|c l IH]; intros s.
  - exists []. simpl. now rewrite app_nil_r.
  - change (after_bytes cfg (c :: l) s) with (after_bytes cfg l (after_char cfg c s)).
    destruct (IH (after_char cfg c s)) as [tail ->].
    rewrite sent_after_char. rewrite <- app_assoc. eauto.
Qed.

Lemma firstn_snoc (buf : list byte) (k : Z) :
  0 < k <= Z.of_nat (length buf) ->
  exists c, buf !! Z.to_nat (k - 1) = Some c /\
            firstn (Z.to_nat k) buf = firstn (Z.to_nat (k - 1)) buf ++ [c].
Proof.
  intros Hk.
  destruct (lookup_lt_is_Some_2 buf (Z.to_nat (k - 1))) as [c Hc]; [lia|].
  exists c. split; [exact Hc|].
  replace (Z.to_nat k) with (S (Z.to_nat (k - 1))) by lia.
  now apply take_S_r.
Qed.

(** C2: the previous-character state outlives a write call.  After each
    byte of a call has gone out the state holds that byte, which is the
    last byte on the line; and a second call that starts with a line feed
    puts a carriage return before it exactly when the last byte the first
    call transmitted was not a carriage return. *)
Theorem prev_char_spans_calls cfg fd (buf1 rest : list byte) (len1 len2 : Z) s :
  CY_RETARGET_IO_CONVERT_LF_TO_CRLF cfg = true ->
  lock_grants cfg s ->
  lock_grants cfg (after_lock cfg s) ->
  prev_synced s ->
  0 <= len1 <= Z.of_nat (length buf1) ->
  1 <= len2 <= 1 + Z.of_nat (length rest) ->
  exists s1 s2,
    _write cfg fd (Some buf1) len1 s = Returns len1 s1 /\
    (forall k, 0 < k <= len1 ->
       exists sk, _write cfg fd (Some buf1) k s = Returns k sk /\
                  buf1 !! Z.to_nat (k - 1) = Some (cy_retarget_io_stdout_prev_char sk) /\
                  last_sent sk = cy_retarget_io_stdout_prev_char sk) /\
    cy_retarget_io_stdout_prev_char s1 = last_sent s1 /\
    _write cfg fd (Some (LF :: rest)) len2 s1 = Returns len2 s2 /\
    (last_sent s1 <> CR -> exists tail, sent s2 = sent s1 ++ CR :: LF :: tail) /\
    (last_sent s1 = CR -> exists tail, sent s2 = sent s1 ++ LF :: tail).
Proof.
  intros Hc Hg Hg' Hs Hl1 Hl2.
  set (s1 := after_lock cfg (after_bytes cfg (firstn (Z.to_nat len1) buf1) s)).
  assert (Hs1 : prev_synced s1).
  { apply synced_after_lock, synced_after_bytes; assumption. }
  assert (Hg1 : lock_grants cfg s1).
  { apply (lock_grants_same cfg (after_lock cfg s)); [| |exact Hg'].
    - apply kernel_after_lock_bytes.
    - unfold s1. now rewrite !flag_after_lock, flag_after_bytes. }
  exists s1, (after_lock cfg (after_bytes cfg (firstn (Z.to_nat len2) (LF :: rest)) s1)).
  split; [apply write_run; assumption|].
  split.
  { intros k Hk. eexists. split; [apply write_run; [assumption|lia]|].
    destruct (firstn_snoc buf1 k) as (c & Hc1 & ->); [lia|].
    rewrite after_bytes_app.
    change (after_bytes cfg [c] ?y) with (after_char cfg c y).
    unfold last_sent. rewrite prev_after_lock, sent_after_lock.
    fold (last_sent (after_char cfg c (after_bytes cfg (firstn (Z.to_nat (k - 1)) buf1) s))).
    rewrite last_sent_after_char, prev_after_char by exact Hc. auto. }
  split; [exact Hs1|].
  split; [apply write_run; [assumption|simpl length; lia]|].
  replace (Z.to_nat len2) with (S (Z.to_nat (len2 - 1))) by lia.
  simpl firstn.
  change (after_bytes cfg (LF :: ?l) ?y) with (after_bytes cfg l (after_char cfg LF y)).
  rewrite sent_after_lock.
  destruct (sent_after_bytes_grows cfg (firstn (Z.to_nat (len2 - 1)) rest)
              (after_char cfg LF s1)) as [tail ->].
  destruct (sent_after_char_synced cfg LF s1 Hc Hs1) as [Hyes Hno].
  split; intros Hl; exists tail.
  - rewrite Hyes by auto. now rewrite <- app_assoc.
  - rewrite Hno by tauto. now rewrite <- app_assoc.
Qed.

Lemma sent_after_bytes_plain cfg l : forall s,
  CY_RETARGET_IO_CONVERT_LF_TO_CRLF cfg = false \/ ~ In LF l ->
  sent (after_bytes cfg l s) = sent s ++ l.
Proof.
  induction l as [|c l IH]; intros s Hp.
  - simpl. now rewrite app_nil_r.
  - change (after_bytes cfg (c :: l) s) with (after_bytes cfg l (after_char cfg c s)).
    rewrite IH, sent_after_char.
    + assert (E : CY_RETARGET_IO_CONVERT_LF_TO_CRLF cfg && Byte.eqb c LF = false).
      { destruct Hp as [-> | Hn]; [reflexivity|].
        destruct (byte_eqb_spec c LF) as [->|]; [|apply Bool.andb_false_r].
        exfalso. apply Hn. now left. }
      rewrite E. simpl. now rewrite <- app_assoc.
    + destruct Hp as [Hp|Hp]; [now left|right]. intros Hin. apply Hp. now right.
Qed.

(** C6: a byte sequence without a line feed reaches the line unchanged,
    whether line-ending translation is compiled in or not. *)
Theorem no_line_feed_same_output cfg fd (S : list byte) s :
  ~ In LF S ->
  lock_grants cfg s ->
  exists s_on s_off,
    _write (with_translation true cfg) fd (Some S) (Z.of_nat (length S)) s
    = Returns (Z.of_nat (length S)) s_on /\
    _write (with_translation false cfg) fd (Some S) (Z.of_nat (length S)) s
    = Returns (Z.of_nat (length S)) s_off /\
    sent s_on = sent s ++ S /\
    sent s_off = sent s ++ S.
Proof.
  intros Hn Hg.
  exists (after_lock (with_translation true cfg)
            (after_bytes (with_translation true cfg) S s)),
         (after_lock (with_translation false cfg)
            (after_bytes (with_translation false cfg) S s)).
  assert (Hf : firstn (Z.to_nat (Z.of_nat (length S))) S = S).
  { rewrite Nat2Z.id. apply firstn_all. }
  repeat split.
  - rewrite write_run by (auto; lia). now rewrite Hf.
  - rewrite write_run by (auto; lia). now rewrite Hf.
  - rewrite sent_after_lock. apply sent_after_bytes_plain. now right.
  - rewrite sent_after_lock. apply sent_after_bytes_plain. now left.
Qed.

End AcrossCalls.

Section WriteCount.
Context {K : Type} `{CyRtos K}.
Implicit Types (s : state K) (c : byte) (cfg : config).

Lemma bind_returns {A B} (m : M (state K) A) (k : A -> M (state K) B) s b s' :
  bind m k s = Returns b s' ->
  exists a s1, m s = Returns a s1 /\ k a s1 = Returns b s'.
Proof.
  unfold bind. destruct (m s) as [a s1| | | | |]; try discriminate. eauto.
Qed.

(** C9: the transmit primitive reports success whatever it is given, so a
    pass through the loop never breaks out: a write call on a buffer of at
    least [len] bytes returns [len] whenever it returns, and it does return
    when the lock is granted (always on a build without the mutex). *)
Theorem write_returns_len cfg fd (buf : list byte) (len : Z) s :
  0 <= len <= Z.of_nat (length buf) ->
  (forall c s0, exists s1,
      cy_retarget_io_putchar c s0 = Returns CY_RSLT_SUCCESS s1) /\
  (forall c s0, exists s1,
      write_char cfg c CY_RSLT_SUCCESS s0 = Returns CY_RSLT_SUCCESS s1) /\
  (forall n s', _write cfg fd (Some buf) len s = Returns n s' -> n = len) /\
  (lock_grants cfg s -> exists s', _write cfg fd (Some buf) len s = Returns len s') /\
  (RTOS_AWARE cfg = false -> exists s', _write cfg fd (Some buf) len s = Returns len s').
Proof.
  intros Hlen. repeat split.
  - intros c s0. eexists. apply putchar_run.
  - intros c s0. eexists. apply write_char_run.
  - intros n s' E. unfold _write in E.
    apply bind_returns in E as (u & sa & Ea & E).
    apply bind_returns in E as (m & sb & Eb & E).
    apply bind_returns in E as (v & sc & Ec & E).
    rewrite write_loop_run in Eb by lia.
    inversion Eb. inversion E. congruence.
  - intros Hg. eexists. now apply write_run.
  - intros Hr. eexists. apply write_run; [|assumption].
    unfold lock_grants. rewrite Hr. discriminate.
Qed.

End WriteCount.

Section ReadPath.
Context {K : Type} `{CyRtos K}.
Implicit Types (s : state K) (c : byte) (buf : list byte).

Lemma receive_flag_seen (busy : bool) :
  (Z.land
    (Z.lor (if busy then XMC_UART_CH_STATUS_FLAG_TRANSFER_STATUS_BUSY else 0)
           XMC_UART_CH_STATUS_FLAG_RECEIVE_INDICATION)
    (Z.lor XMC_UART_CH_STATUS_FLAG_RECEIVE_INDICATION
           XMC_UART_CH_STATUS_FLAG_ALTERNATIVE_RECEIVE_INDICATION) =? 0) = false.
Proof. destruct busy; reflexivity. Qed.

Lemma receive_flag_clear (busy : bool) :
  (Z.land
    (Z.lor (if busy then XMC_UART_CH_STATUS_FLAG_TRANSFER_STATUS_BUSY else 0) 0)
    (Z.lor XMC_UART_CH_STATUS_FLAG_RECEIVE_INDICATION
           XMC_UART_CH_STATUS_FLAG_ALTERNATIVE_RECEIVE_INDICATION) =? 0) = true.
Proof. destruct busy; reflexivity. Qed.

(** With a byte waiting, [cy_retarget_io_getchar] stores it and succeeds. *)
Lemma getchar_run buf (ptr : nat) c rest s :
  rx_line (uart s) = c :: rest ->
  (ptr < length buf)%nat ->
  exists s',
    cy_retarget_io_getchar buf ptr s = Returns (<[ptr := c]> buf, CY_RSLT_SUCCESS) s' /\
    rx_line (uart s') = rest /\
    sent s' = sent s.
Proof.
  intros Hrx Hptr. unfold cy_retarget_io_getchar.
  unfold bind at 1. unfold XMC_UART_CH_GetStatusFlag, status_word.
  rewrite Hrx, receive_flag_seen.
  unfold bind at 1. unfold XMC_UART_CH_GetReceivedData. simpl.
  destruct (Nat.ltb_spec ptr (length buf)) as [_|]; [|lia].
  run. eexists. split; [rewrite Hrx; reflexivity|].
  split; [simpl; now rewrite Hrx|].
  unfold sent. simpl. rewrite !transmitted_app. simpl. now rewrite !app_nil_r.
Qed.

(** With the line silent it never comes back. *)
Lemma getchar_blocks buf (ptr : nat) s :
  rx_line (uart s) = [] ->
  exists s', cy_retarget_io_getchar buf ptr s = Blocks s'.
Proof.
  intros Hrx. unfold cy_retarget_io_getchar.
  unfold bind at 1. unfold XMC_UART_CH_GetStatusFlag, status_word.
  rewrite Hrx, receive_flag_clear. eauto.
Qed.

Lemma read_loop_run : forall (got : list byte) fuel buf (ptr : nat) nChars len s rest,
  rx_line (uart s) = got ++ rest ->
  read_prefix (Z.to_nat (len - nChars)) got = true ->
  (ptr + length got <= length buf)%nat ->
  (length got <= fuel)%nat ->
  exists s',
    read_loop fuel buf ptr nChars len s =
    Returns (nChars + Z.of_nat (length got),
             firstn ptr buf ++ got ++ skipn (ptr + length got) buf) s' /\
    rx_line (uart s') = rest /\
    sent s' = sent s.
Proof.
  induction got as [|c got IH]; intros fuel buf ptr nChars len s rest Hrx Hp Hroom Hfuel.
  - exists s. simpl in *.
    destruct (Z.to_nat (len - nChars)) eqn:E; [|discriminate].
    assert (Hge : (nChars <? len) = false) by (apply Z.ltb_ge; lia).
    destruct fuel; simpl; rewrite Hge; unfold ret;
      rewrite Z.add_0_r, Nat.add_0_r, take_drop; auto.
  - simpl in Hp, Hroom, Hfuel.
    destruct (Z.to_nat (len - nChars)) as [|limit] eqn:E; [discriminate|].
    assert (Hlt : (nChars <? len) = true) by (apply Z.ltb_lt; lia).
    destruct fuel as [|fuel]; [lia|]. simpl read_loop. rewrite Hlt.
    destruct (getchar_run buf ptr c (got ++ rest) s Hrx) as (s1 & Eg & Hrx1 & Hs1); [lia|].
    unfold bind at 1. rewrite Eg. cbn [fst snd].
    rewrite Z.eqb_refl, list_lookup_insert_eq by lia.
    fold (is_terminator c). simpl in Hp.
    destruct (is_terminator c) eqn:Et.
    + destruct got as [|]; [|discriminate].
      exists s1. unfold ret. simpl length. rewrite insert_take_drop by lia.
      simpl in Hrx1. repeat split; auto.
      replace (ptr + 1)%nat with (S ptr) by lia. reflexivity.
    + destruct (IH fuel (<[ptr := c]> buf) (S ptr) (nChars + 1) len s1 rest)
        as (s' & Er & Hrx' & Hs'); auto.
      * replace (Z.to_nat (len - (nChars + 1))) with limit by lia. exact Hp.
      * rewrite length_insert. lia.
      * lia.
      * exists s'. rewrite Er. repeat split; [|assumption|congruence].
        f_equal. f_equal; [simpl length; lia|].
        rewrite drop_insert_lt by lia.
        replace (take (S ptr) (<[ptr:=c]> buf)) with (take ptr buf ++ [c]).
        { rewrite <- app_assoc. simpl.
          now replace (ptr + S (length got))%nat with (S (ptr + length got)) by lia. }
        rewrite (take_S_r _ ptr c) by (apply list_lookup_insert_eq; lia).
        now rewrite take_insert_ge by lia.
Qed.

End ReadPath.

Section ReadCall.
Context {K : Type} `{CyRtos K}.
Implicit Types (s : state K) (c : byte) (buf : list byte).

Lemma is_terminator_iff c : is_terminator c = true <-> c = LF \/ c = CR.
Proof.
  unfold is_terminator. rewrite Bool.orb_true_iff.
  destruct (byte_eqb_spec c LF), (byte_eqb_spec c CR); intuition congruence.
Qed.

Lemma not_terminator_iff c : is_terminator c = false <-> c <> LF /\ c <> CR.
Proof.
  unfold is_terminator. rewrite Bool.orb_false_iff.
  destruct (byte_eqb_spec c LF), (byte_eqb_spec c CR); intuition congruence.
Qed.

Lemma read_prefix_intro : forall (got : list byte) (limit : nat),
  (forall i c, (i + 1 < length got)%nat -> got !! i = Some c -> c <> LF /\ c <> CR) ->
  (length got <= limit)%nat ->
  (length got = limit \/ exists pre t, got = pre ++ [t] /\ (t = LF \/ t = CR)) ->
  read_prefix limit got = true.
Proof.
  induction got as [|c got IH]; intros limit Hmid Hle Hend.
  - destruct limit; [reflexivity|].
    destruct Hend as [E|(pre & t & E & _)]; [discriminate|].
    now destruct pre.
  - destruct limit as [|limit]; [simpl in Hle; lia|]. simpl.
    destruct (is_terminator c) eqn:Et.
    + destruct got as [|c' got]; [reflexivity|].
      apply is_terminator_iff in Et.
      destruct (Hmid 0%nat c) as [? ?]; [simpl; lia|reflexivity|tauto].
    + apply IH.
      * intros i c' Hi Hc'. apply (Hmid (S i) c'); [simpl; lia|exact Hc'].
      * simpl in Hle. lia.
      * destruct Hend as [E|(pre & t & E & Ht)]; [left; simpl in E; lia|right].
        destruct pre as [|p pre]; simpl in E; inversion E; subst.
        -- apply not_terminator_iff in Et. tauto.
        -- eauto.
Qed.

(** C3: a read on a buffer takes bytes off the line one by one, stores
    them in order from the start of the buffer, and stops exactly when
    [len] bytes are stored or the byte just stored is a line feed or a
    carriage return; that byte is stored and counted.  So it returns 6 and
    leaves hello-LF in the buffer when reading at most 10 from a line
    carrying hello-LF-world, and returns 3 when reading at most 3 from a
    line whose first three bytes hold no terminator. *)
Theorem read_stops_at_terminator :
  (forall fd buf (len : Z) (got rest : list byte) s,
     rx_line (uart s) = got ++ rest ->
     (forall i c, (i + 1 < length got)%nat -> got !! i = Some c ->
                  c <> LF /\ c <> CR) ->
     Z.of_nat (length got) <= Z.max 0 len ->
     (Z.of_nat (length got) = Z.max 0 len \/
      exists pre t, got = pre ++ [t] /\ (t = LF \/ t = CR)) ->
     (length got <= length buf)%nat ->
     exists s',
       _read fd (Some buf) len s =
       Returns (Z.of_nat (length got), Some (got ++ skipn (length got) buf)) s' /\
       rx_line (uart s') = rest /\
       sent s' = sent s) /\
  (forall fd buf rest s,
     rx_line (uart s) = bytes "hello" ++ LF :: bytes "world" ++ rest ->
     (10 <= length buf)%nat ->
     exists s',
       _read fd (Some buf) 10 s =
       Returns (6, Some (bytes "hello" ++ LF :: skipn 6 buf)) s') /\
  (forall fd buf (a b c : byte) rest s,
     rx_line (uart s) = a :: b :: c :: rest ->
     is_terminator a = false -> is_terminator b = false ->
     (3 <= length buf)%nat ->
     exists s',
       _read fd (Some buf) 3 s = Returns (3, Some (a :: b :: c :: skipn 3 buf)) s').
Proof.
  assert (Main : forall fd buf (len : Z) (got rest : list byte) s,
     rx_line (uart s) = got ++ rest ->
     read_prefix (Z.to_nat len) got = true ->
     (length got <= length buf)%nat ->
     exists s',
       _read fd (Some buf) len s =
       Returns (Z.of_nat (length got), Some (got ++ skipn (length got) buf)) s' /\
       rx_line (uart s') = rest /\
       sent s' = sent s).
  { intros fd buf len got rest s Hrx Hp Hroom.
    destruct (read_loop_run got (Z.to_nat len) buf 0%nat 0 len s rest)
      as (s' & Er & Hrx' & Hs'); auto.
    - now rewrite Z.sub_0_r.
    - clear - Hp. revert Hp. generalize (Z.to_nat len).
      induction got as [|c got IH]; intros [|n]; simpl; try discriminate; [lia|].
      destruct (is_terminator c).
      + destruct got; [simpl; lia|discriminate].
      + intros Hp. apply IH in Hp. lia.
    - exists s'. unfold _read, bind. rewrite Er. auto. }
  split; [|split].
  - intros fd buf len got rest s Hrx Hmid Hle Hend Hroom.
    apply Main; auto. apply read_prefix_intro; auto; try lia.
    destruct Hend as [E|E]; [left; lia|right; exact E].
  - intros fd buf rest s Hrx Hroom.
    destruct (Main fd buf 10 (bytes "hello" ++ [LF]) (bytes "world" ++ rest) s)
      as (s' & E & _); auto.
    + simpl length. lia.
    + exists s'. exact E.
  - intros fd buf a b c rest s Hrx Ha Hb Hroom.
    destruct (Main fd buf 3 [a; b; c] rest s) as (s' & E & _); auto.
    + change (Z.to_nat 3) with 3%nat. simpl. rewrite Ha, Hb.
      now destruct (is_terminator c).
    + exists s'. exact E.
Qed.

End ReadCall.

Section NullBuffers.
Context {K : Type} `{CyRtos K}.
Implicit Types (s : state K) (cfg : config).

(** C5, as the code has it: with a null buffer the newlib hooks [_write]
    and [_read], and the IAR hook [__write] on the standard output, return
    a count of zero and leave the whole state as it was, the channel and
    its call log included; the IAR hook [__read] also leaves the state as
    it was but returns [_LLIO_ERROR]. *)
Theorem null_buffer_calls :
  (forall cfg fd n s, _write cfg fd None n s = Returns 0 s) /\
  (forall fd n s, _read fd None n s = Returns (0, None) s) /\
  (forall llio_stdout llio_error cfg n s,
     __write llio_stdout llio_error cfg llio_stdout None n s = Returns 0 s) /\
  (forall llio_stdin llio_error handle n s,
     __read llio_stdin llio_error handle None n s = Returns (llio_error, None) s).
Proof.
  repeat split.
  - intros. unfold __write. now rewrite Z.eqb_refl.
  - intros. unfold __read. now destruct (negb _).
Qed.

End NullBuffers.

(** C5, as stated, fails on the IAR read hook: a read of one byte into a
    null buffer from the standard input returns the error value of the IAR
    runtime, which is not zero. *)
Lemma iar_read_null_is_error :
  let s := boot (mkKernel 1 0 false false) 8000000 (quiet_line (bytes "x")) in
  __read yfuns_LLIO_STDIN yfuns_LLIO_ERROR yfuns_LLIO_STDIN None 1 s
  = Returns (yfuns_LLIO_ERROR, None) s /\
  yfuns_LLIO_ERROR <> 0 /\
  __read yfuns_LLIO_STDIN yfuns_LLIO_ERROR yfuns_LLIO_STDIN None 1 s
  <> Returns (0, None) s.
Proof.
  repeat split; [discriminate|]. intros E. discriminate E.
Qed.

Section Initialisation.
Context {K : Type} `{CyRtos K}.
Implicit Types (s : state K) (cfg : config).

Lemma init_run cfg base s :
  cy_retarget_io_init cfg base s =
  if RTOS_AWARE cfg then
    if cy_retarget_io_mutex_initialized s
    then Returns CY_RSLT_SUCCESS (set_channel base s)
    else
      let r := cy_rtos_init_mutex (kernel s) in
      Returns (fst r)
              (if CY_RSLT_SUCCESS =? fst r
               then set_mutex_initialized true (set_kernel (snd r) (set_channel base s))
               else set_kernel (snd r) (set_channel base s))
  else Returns CY_RSLT_SUCCESS (set_channel base s).
Proof.
  unfold cy_retarget_io_init, cy_retarget_io_mutex_init.
  destruct (RTOS_AWARE cfg); [|reflexivity]. run.
  destruct (cy_retarget_io_mutex_initialized s); [reflexivity|].
  unfold rtos_call. simpl.
  destruct (CY_RSLT_SUCCESS =? fst (cy_rtos_init_mutex (kernel s))) eqn:E;
    simpl in E |- *; rewrite E; reflexivity.
Qed.

(** C7: initialisation stores the handle; it calls the kernel to create
    the mutex only when the flag is clear, and sets the flag when that
    succeeds; with the flag set it returns success and leaves the kernel
    alone; a result other than success is the code the kernel gave for the
    failed creation; and initialising again after a success returns success
    and changes nothing but the handle. *)
Theorem init_creates_lock_once cfg base s :
  exists rslt s',
    cy_retarget_io_init cfg base s = Returns rslt s' /\
    cy_retarget_io_uart_obj s' = base /\
    uart s' = uart s /\
    (RTOS_AWARE cfg = true -> cy_retarget_io_mutex_initialized s = true ->
     rslt = CY_RSLT_SUCCESS /\ s' = set_channel base s) /\
    (RTOS_AWARE cfg = true -> cy_retarget_io_mutex_initialized s = false ->
     rslt = fst (cy_rtos_init_mutex (kernel s)) /\
     kernel s' = snd (cy_rtos_init_mutex (kernel s)) /\
     cy_retarget_io_mutex_initialized s' = (rslt =? CY_RSLT_SUCCESS)) /\
    (RTOS_AWARE cfg = false ->
     rslt = CY_RSLT_SUCCESS /\ s' = set_channel base s) /\
    (rslt <> CY_RSLT_SUCCESS ->
     RTOS_AWARE cfg = true /\
     cy_retarget_io_mutex_initialized s = false /\
     fst (cy_rtos_init_mutex (kernel s)) <> CY_RSLT_SUCCESS /\
     rslt = fst (cy_rtos_init_mutex (kernel s))) /\
    (rslt = CY_RSLT_SUCCESS ->
     forall base',
       cy_retarget_io_init cfg base' s' =
       Returns CY_RSLT_SUCCESS (set_channel base' s')).
Proof.
  rewrite init_run. destruct (RTOS_AWARE cfg) eqn:HR.
  - destruct (cy_retarget_io_mutex_initialized s) eqn:Hf.
    + do 2 eexists. split; [reflexivity|]. simpl.
      repeat split; try congruence; try discriminate.
      intros _ base'. rewrite init_run, HR. simpl. now rewrite Hf.
    + cbv zeta.
      destruct (CY_RSLT_SUCCESS =? fst (cy_rtos_init_mutex (kernel s))) eqn:Er;
        do 2 eexists; (split; [reflexivity|]); simpl;
        repeat split; try congruence; try discriminate.
      all: rewrite ?(Z.eqb_sym _ CY_RSLT_SUCCESS), ?Er; try congruence.
      * intros _ base'. rewrite init_run, HR. reflexivity.
      * intros E. apply Z.eqb_neq in Er. congruence.
  - do 2 eexists. split; [reflexivity|]. simpl.
    repeat split; try congruence; try discriminate.
    intros _ base'. rewrite init_run, HR. reflexivity.
Qed.

End Initialisation.

Section Shutdown.
Context {K : Type} `{CyRtos K}.
Implicit Types (s : state K) (cfg : config).

Lemma spin_count_range c : 1 <= spin_count c <= 2 ^ 32.
Proof.
  unfold spin_count.
  pose proof (Z.mod_pos_bound (c - 1) (2 ^ 32) ltac:(lia)). lia.
Qed.

Lemma spin_count_small c : 1 <= c < 2 ^ 32 -> spin_count c = c.
Proof. intros Hc. unfold spin_count. rewrite Z.mod_small; lia. Qed.

Lemma spin_count_zero : spin_count 0 = 2 ^ 32.
Proof. reflexivity. Qed.

Lemma spin_spec : forall d c n,
  spin d c n =
  if spin_count c <=? 2 ^ Z.of_nat d
  then (0, n + spin_count c, true)
  else ((c - 2 ^ Z.of_nat d) mod 2 ^ 32, n + 2 ^ Z.of_nat d, false).
Proof.
  induction d as [|d IH]; intros c n.
  - change (2 ^ Z.of_nat 0) with 1. unfold spin, spin_count.
    pose proof (Z.mod_pos_bound (c - 1) (2 ^ 32) ltac:(lia)) as Hb.
    rewrite Z.gtb_ltb.
    destruct (Z.leb_spec ((c - 1) mod 2 ^ 32 + 1) 1) as [Hs|Hs];
      destruct (Z.ltb_spec 0 ((c - 1) mod 2 ^ 32)) as [Hp|Hp]; try lia; simpl.
    + replace ((c - 1) mod 2 ^ 32) with 0 by lia. reflexivity.
    + reflexivity.
  - rewrite Nat2Z.inj_succ, Z.pow_succ_r by lia.
    assert (Hpos : 0 < 2 ^ Z.of_nat d) by (apply Z.pow_pos_nonneg; lia).
    simpl spin. rewrite IH.
    destruct (Z.leb_spec (spin_count c) (2 ^ Z.of_nat d)) as [Hs|Hs]; cbn [fst snd].
    + destruct (Z.leb_spec (spin_count c) (2 * 2 ^ Z.of_nat d)); [reflexivity|lia].
    + rewrite IH.
      assert (E : spin_count ((c - 2 ^ Z.of_nat d) mod 2 ^ 32)
                  = spin_count c - 2 ^ Z.of_nat d).
      { unfold spin_count in *.
        rewrite Zminus_mod_idemp_l.
        replace (c - 2 ^ Z.of_nat d - 1) with (c - 1 - 2 ^ Z.of_nat d) by lia.
        pose proof (Z.mod_pos_bound (c - 1) (2 ^ 32) ltac:(lia)) as Hb.
        rewrite <- (Zminus_mod_idemp_l (c - 1)).
        rewrite (Z.mod_small ((c - 1) mod 2 ^ 32 - 2 ^ Z.of_nat d)) by lia. lia. }
      rewrite E, Zminus_mod_idemp_l.
      destruct (Z.leb_spec (spin_count c - 2 ^ Z.of_nat d) (2 ^ Z.of_nat d));
        destruct (Z.leb_spec (spin_count c) (2 * 2 ^ Z.of_nat d)); try lia.
      * do 2 f_equal. lia.
      * replace (c - 2 ^ Z.of_nat d - 2 ^ Z.of_nat d) with (c - 2 * 2 ^ Z.of_nat d) by lia.
        do 2 f_equal. lia.
Qed.

(** The delay loop always leaves, with the counter at zero. *)
Lemma delay_loop_run c s :
  delay_loop c s = Returns 0 (set_uart (tick (spin_count c) (uart s)) s).
Proof.
  unfold delay_loop. rewrite spin_spec.
  pose proof (spin_count_range c) as Hr.
  change (2 ^ Z.of_nat 32) with (2 ^ 32).
  destruct (Z.leb_spec (spin_count c) (2 ^ 32)); [|lia].
  reflexivity.
Qed.

Lemma is_tx_active_run s :
  cy_retarget_io_is_tx_active s =
  Returns (tx_busy (uart s))
          (set_uart (log_call (GetStatusFlag (cy_retarget_io_uart_obj s)) (uart s)) s).
Proof.
  unfold cy_retarget_io_is_tx_active, bind, XMC_UART_CH_GetStatusFlag, ret, status_word.
  destruct (tx_busy (uart s)), (rx_line (uart s)); reflexivity.
Qed.

(** The polling loop always leaves; it only touches the channel, and on
    the channel only the call log and the clock. *)
Lemma deinit_loop_ends : forall fuel t c s,
  t <= Z.of_nat fuel ->
  exists t' c' u',
    deinit_loop fuel t c s = Returns (t', c') (set_uart u' s) /\
    rx_line u' = rx_line (uart s) /\
    tx_busy_until u' = tx_busy_until (uart s) /\
    transmitted (calls u') = transmitted (calls (uart s)).
Proof.
  induction fuel as [|fuel IH]; intros t c s Ht.
  - exists t, c, (uart s). simpl. rewrite Z.gtb_ltb.
    destruct (Z.ltb_spec 0 t); [simpl in Ht; lia|]. unfold ret.
    destruct s; auto.
  - simpl. rewrite Z.gtb_ltb. destruct (Z.ltb_spec 0 t) as [Hp|Hp].
    + unfold bind at 1. rewrite is_tx_active_run.
      destruct (tx_busy (uart s)); simpl.
      * unfold bind at 1. rewrite delay_loop_run.
        destruct (IH (t - 1) 0
                     (set_uart
                        (tick (spin_count c)
                           (uart (set_uart
                                    (log_call (GetStatusFlag (cy_retarget_io_uart_obj s))
                                       (uart s)) s)))
                        (set_uart
                           (log_call (GetStatusFlag (cy_retarget_io_uart_obj s)) (uart s))
                           s)))
          as (t' & c' & u' & E & Hrx & Hb & Htx); [lia|].
        exists t', c', u'. rewrite E. simpl in *.
        rewrite transmitted_app in Htx. simpl in Htx. rewrite app_nil_r in Htx.
        auto.
      * eexists t, c, _. unfold ret. split; [reflexivity|]. simpl.
        rewrite transmitted_app. simpl. rewrite app_nil_r. auto.
    + exists t, c, (uart s). unfold ret. destruct s; auto.
Qed.

(** With the transmitter busy for ever the loop runs its [t] rounds: the
    first delay lasts [spin_count c] decrements, every later one a full
    turn of the counter, which is left at zero and never reloaded. *)
Lemma deinit_loop_stuck : forall fuel t c s,
  tx_busy_until (uart s) = None ->
  0 < t <= Z.of_nat fuel ->
  exists u',
    deinit_loop fuel t c s = Returns (0, 0) (set_uart u' s) /\
    clock u' = clock (uart s) + spin_count c + (t - 1) * 2 ^ 32.
Proof.
  induction fuel as [|fuel IH]; intros t c s Hb Ht; [simpl in Ht; lia|].
  simpl deinit_loop. rewrite Z.gtb_ltb. destruct (Z.ltb_spec 0 t) as [_|]; [|lia].
  unfold bind at 1. rewrite is_tx_active_run. unfold tx_busy. rewrite Hb.
  change (negb true) with false. cbv iota. unfold bind at 1. rewrite delay_loop_run.
  destruct (Z.eq_dec t 1) as [->|Hne].
  - eexists. destruct fuel; simpl; unfold ret; (split; [reflexivity|]); simpl; lia.
  - edestruct (IH (t - 1) 0) as (u' & E & Hc); [|lia|rewrite E].
    + simpl. exact Hb.
    + exists u'. split; [reflexivity|]. rewrite Hc. simpl.
      rewrite spin_count_zero. lia.
Qed.

(** The whole of [cy_retarget_io_deinit], given what its loop returned. *)
Lemma deinit_after_loop cfg s r u' :
  deinit_loop 1000 1000 (SystemCoreClock s / 1000) s = Returns r (set_uart u' s) ->
  cy_retarget_io_deinit cfg s =
  if negb (NDEBUG cfg) && (fst r =? 0) then Halts (set_uart u' s)
  else if RTOS_AWARE cfg then
    if negb (NDEBUG cfg) && negb (cy_retarget_io_mutex_initialized s)
    then Halts (set_uart u' s)
    else
      let k := cy_rtos_deinit_mutex (kernel s) in
      if fst k =? CY_RSLT_SUCCESS
      then Returns tt (set_kernel (snd k) (set_uart u' s))
      else Aborts (set_kernel (snd k) (set_uart u' s))
  else Returns tt (set_uart u' s).
Proof.
  intros E. unfold cy_retarget_io_deinit. unfold bind at 1. unfold get.
  unfold bind at 1. rewrite E.
  unfold bind at 1. unfold CY_ASSERT at 1.
  destruct (NDEBUG cfg) eqn:Hn; simpl.
  - unfold cy_retarget_io_mutex_deinit, CY_ASSERT. rewrite Hn.
    destruct (RTOS_AWARE cfg); [|reflexivity]. run. unfold rtos_call. simpl.
    destruct (fst (cy_rtos_deinit_mutex (kernel s))); reflexivity.
  - destruct (fst r =? 0); simpl; [reflexivity|].
    unfold cy_retarget_io_mutex_deinit, CY_ASSERT. rewrite Hn.
    destruct (RTOS_AWARE cfg); [|reflexivity]. run.
    destruct (cy_retarget_io_mutex_initialized s); simpl; [|reflexivity].
    unfold rtos_call. simpl.
    destruct (fst (cy_rtos_deinit_mutex (kernel s))); reflexivity.
Qed.

(** However [cy_retarget_io_deinit] ends, it ends, and the state it leaves
    differs from the one it found only in the channel and the kernel. *)
Lemma deinit_ends cfg s :
  exists s',
    final_state (cy_retarget_io_deinit cfg s) = Some s' /\
    cy_retarget_io_mutex_initialized s' = cy_retarget_io_mutex_initialized s /\
    cy_retarget_io_uart_obj s' = cy_retarget_io_uart_obj s /\
    cy_retarget_io_stdout_prev_char s' = cy_retarget_io_stdout_prev_char s /\
    sent s' = sent s.
Proof.
  destruct (deinit_loop_ends 1000 1000 (SystemCoreClock s / 1000) s)
    as (t' & c' & u' & E & _ & _ & Htx); [simpl; lia|].
  rewrite (deinit_after_loop cfg s _ _ E).
  repeat match goal with
         | |- context [if ?b then _ else _] => destruct b
         | |- context [let _ := _ in _] => cbv zeta
         end;
    eexists; (split; [reflexivity|]); unfold sent; simpl; auto.
Qed.

(** The wait of [cy_retarget_io_deinit] on a transmitter that never goes
    idle, counted in decrements of the delay counter. *)
Lemma deinit_stuck cfg s :
  tx_busy_until (uart s) = None ->
  exists s',
    final_state (cy_retarget_io_deinit cfg s) = Some s' /\
    clock (uart s') =
    clock (uart s) + spin_count (SystemCoreClock s / 1000) + 999 * 2 ^ 32.
Proof.
  intros Hb.
  destruct (deinit_loop_stuck 1000 1000 (SystemCoreClock s / 1000) s Hb)
    as (u' & E & Hc); [simpl; lia|].
  rewrite (deinit_after_loop cfg s _ _ E).
  repeat match goal with
         | |- context [if ?b then _ else _] => destruct b
         | |- context [let _ := _ in _] => cbv zeta
         end;
    eexists; (split; [reflexivity|]); simpl; lia.
Qed.

End Shutdown.

(** C4, evaluated: at a core clock of 144 MHz, with the transmitter busy
    for ever, [cy_retarget_io_deinit] ends (in the failed assertion) after
    144000 + 999 * 2^32 decrements of its delay counter, not after the
    1000 * 144000 that a thousand delays of [SystemCoreClock / 1000]
    decrements would take: only the first delay has that length. *)
Theorem deinit_wait_at_144MHz :
  exists s',
    cy_retarget_io_deinit rtos_build (demo_session 144000000 stuck_line) = Halts s' /\
    clock (uart s') = 144000 + 999 * 2 ^ 32 /\
    1000 * (144000000 / 1000) < clock (uart s').
Proof.
  set (s := demo_session 144000000 stuck_line).
  destruct (deinit_loop_stuck 1000 1000 (SystemCoreClock s / 1000) s eq_refl)
    as (u' & E & Hc); [simpl; lia|].
  rewrite (deinit_after_loop rtos_build s _ _ E). clear E.
  exists (set_uart u' s). split; [reflexivity|].
  change (clock (uart (set_uart u' s))) with (clock u').
  change (SystemCoreClock s / 1000) with 144000 in Hc.
  change (clock (uart s)) with 0 in Hc.
  rewrite spin_count_small in Hc by lia.
  change (144000000 / 1000) with 144000. lia.
Qed.

Section AfterShutdown.
Context {K : Type} `{CyRtos K}.
Implicit Types (s : state K) (cfg : config).

(** C10: [cy_retarget_io_deinit] never writes the flag: however it ends,
    the flag is what it was.  So after a successful initialisation and a
    returning shutdown on an RTOS-aware build the flag is still set
    although the kernel has destroyed the mutex; a further initialisation
    returns success without a call to the kernel; and the assertions of
    acquire and release pass, so that both go on to call the kernel on the
    destroyed mutex. *)
Theorem flag_survives_deinit cfg base s0 s1 s2 :
  RTOS_AWARE cfg = true ->
  cy_retarget_io_init cfg base s0 = Returns CY_RSLT_SUCCESS s1 ->
  cy_retarget_io_deinit cfg s1 = Returns tt s2 ->
  (forall s, exists s',
     final_state (cy_retarget_io_deinit cfg s) = Some s' /\
     cy_retarget_io_mutex_initialized s' = cy_retarget_io_mutex_initialized s) /\
  cy_retarget_io_mutex_initialized s1 = true /\
  cy_retarget_io_mutex_initialized s2 = true /\
  fst (cy_rtos_deinit_mutex (kernel s1)) = CY_RSLT_SUCCESS /\
  kernel s2 = snd (cy_rtos_deinit_mutex (kernel s1)) /\
  (forall base',
     cy_retarget_io_init cfg base' s2 =
     Returns CY_RSLT_SUCCESS (set_channel base' s2)) /\
  CY_ASSERT cfg (cy_retarget_io_mutex_initialized s2) s2 = Returns tt s2 /\
  cy_retarget_io_mutex_acquire cfg s2 =
  (let r := cy_rtos_get_mutex (kernel s2) in
   if fst r =? CY_RSLT_SUCCESS
   then Returns tt (set_kernel (snd r) s2) else Aborts (set_kernel (snd r) s2)) /\
  cy_retarget_io_mutex_release cfg s2 =
  (let r := cy_rtos_set_mutex (kernel s2) in
   if fst r =? CY_RSLT_SUCCESS
   then Returns tt (set_kernel (snd r) s2) else Aborts (set_kernel (snd r) s2)).
Proof.
  intros HR Hinit Hde.
  assert (Hf1 : cy_retarget_io_mutex_initialized s1 = true).
  { rewrite init_run, HR in Hinit.
    destruct (cy_retarget_io_mutex_initialized s0) eqn:Hf0.
    - inversion Hinit. exact Hf0.
    - cbv zeta in Hinit. inversion Hinit as [[Hr Hs]].
      rewrite Hr in Hs. rewrite Hr. simpl. reflexivity. }
  destruct (deinit_loop_ends 1000 1000 (SystemCoreClock s1 / 1000) s1)
    as (t' & c' & u' & E & _); [simpl; lia|].
  rewrite (deinit_after_loop cfg s1 _ _ E), HR, Hf1 in Hde.
  rewrite Bool.andb_false_r in Hde. cbv zeta in Hde.
  destruct (negb (NDEBUG cfg) && (fst (t', c') =? 0)); [discriminate|].
  destruct (fst (cy_rtos_deinit_mutex (kernel s1)) =? CY_RSLT_SUCCESS) eqn:Ek;
    [|discriminate].
  inversion Hde as [Hs2]. apply Z.eqb_eq in Ek.
  split; [|repeat split].
  - intros s. destruct (deinit_ends cfg s) as (s' & Hs' & Hf & _). eauto.
  - exact Hf1.
  - exact Hf1.
  - exact Ek.
  - intros base'. rewrite init_run, HR. simpl. now rewrite Hf1.
  - unfold CY_ASSERT. simpl. rewrite Hf1. now destruct (NDEBUG cfg).
  - unfold cy_retarget_io_mutex_acquire, CY_ASSERT. rewrite HR. run.
    rewrite Hf1. unfold rtos_call.
    destruct (NDEBUG cfg); simpl;
      destruct (fst (cy_rtos_get_mutex (snd (cy_rtos_deinit_mutex (kernel s1)))));
      reflexivity.
  - unfold cy_retarget_io_mutex_release, CY_ASSERT. rewrite HR. run.
    rewrite Hf1. unfold rtos_call.
    destruct (NDEBUG cfg); simpl;
      destruct (fst (cy_rtos_set_mutex (snd (cy_rtos_deinit_mutex (kernel s1)))));
      reflexivity.
Qed.

End AfterShutdown.

(** * The translation state over a whole session *)

Section SessionInvariant.
Context {K : Type} `{CyRtos K}.
Implicit Types (s : state K) (cfg : config).

Lemma steady_ret {A} (a : A) : steady (K := K) (ret a).
Proof. intros s s' E. inversion E. auto. Qed.

Lemma steady_bind {A B} (m : M (state K) A) (k : A -> M (state K) B) :
  steady m -> (forall a, steady (k a)) -> steady (bind m k).
Proof.
  intros Hm Hk s s' E. unfold bind in E.
  destruct (m s) as [a s1| s1 | s1 | s1 | |] eqn:Em; simpl in E;
    try (apply Hm; rewrite Em; exact E).
  destruct (Hm s s1) as [Hp Hs]; [now rewrite Em|].
  destruct (Hk a s1 s' E) as [Hp' Hs']. split; congruence.
Qed.

Lemma steady_if {A} (b : bool) (m1 m2 : M (state K) A) :
  steady m1 -> steady m2 -> steady (if b then m1 else m2).
Proof. now destruct b. Qed.

Lemma steady_end {A} (f : state K -> outcome (state K) A) :
  (forall s, final_state (f s) = Some s) -> steady f.
Proof. intros Hf s s' E. rewrite Hf in E. inversion E. auto. Qed.

Lemma steady_assert cfg x : steady (K := K) (CY_ASSERT cfg x).
Proof.
  unfold CY_ASSERT. repeat apply steady_if; try apply steady_ret.
  now apply steady_end.
Qed.

Lemma steady_rtos_call (f : K -> cy_rslt_t * K) : steady (rtos_call f).
Proof. intros s s' E. inversion E. auto. Qed.

Lemma steady_abort {A} : steady (K := K) (abort (A := A)).
Proof. now apply steady_end. Qed.

Lemma steady_acquire cfg : steady (cy_retarget_io_mutex_acquire cfg).
Proof.
  unfold cy_retarget_io_mutex_acquire.
  apply steady_if; [|apply steady_ret].
  apply steady_bind; [now apply steady_end|intros s0].
  apply steady_bind; [apply steady_assert|intros _].
  apply steady_bind; [apply steady_rtos_call|intros r].
  apply steady_if; [apply steady_abort|apply steady_ret].
Qed.

Lemma steady_release cfg : steady (cy_retarget_io_mutex_release cfg).
Proof.
  unfold cy_retarget_io_mutex_release.
  apply steady_if; [|apply steady_ret].
  apply steady_bind; [now apply steady_end|intros s0].
  apply steady_bind; [apply steady_assert|intros _].
  apply steady_bind; [apply steady_rtos_call|intros r].
  apply steady_if; [apply steady_abort|apply steady_ret].
Qed.

Lemma steady_init cfg base : steady (cy_retarget_io_init cfg base).
Proof.
  intros s s' E. rewrite init_run in E.
  repeat match type of E with
         | context [if ?b then _ else _] => destruct b
         | context [let _ := _ in _] => cbv zeta in E
         end; inversion E; auto.
Qed.

Lemma steady_driver_call (c : uart_call) s :
  (forall ch d, c <> Transmit ch d) ->
  sent (set_uart (log_call c (uart s)) s) = sent s.
Proof.
  intros Hc. unfold sent. simpl. rewrite transmitted_app.
  destruct c; simpl; try apply app_nil_r. now destruct (Hc channel data).
Qed.

Lemma steady_status : steady (K := K) XMC_UART_CH_GetStatusFlag.
Proof.
  intros s s' E. inversion E. split; [reflexivity|].
  now apply steady_driver_call.
Qed.

Lemma steady_received : steady (K := K) XMC_UART_CH_GetReceivedData.
Proof.
  intros s s' E. inversion E. split; [reflexivity|].
  unfold sent. simpl. rewrite transmitted_app. apply app_nil_r.
Qed.

Lemma steady_clear flags : steady (K := K) (XMC_UART_CH_ClearStatusFlag flags).
Proof.
  intros s s' E. inversion E. split; [reflexivity|].
  now apply steady_driver_call.
Qed.

Lemma steady_getchar buf ptr : steady (K := K) (cy_retarget_io_getchar buf ptr).
Proof.
  unfold cy_retarget_io_getchar.
  apply steady_bind; [apply steady_status|intros flags].
  apply steady_if; [now apply steady_end|].
  apply steady_bind; [apply steady_received|intros data].
  apply steady_if; [|intros s s' E; discriminate E].
  apply steady_bind; [apply steady_clear|intros _]. apply steady_ret.
Qed.

Lemma steady_read_loop : forall fuel buf ptr nChars len,
  steady (K := K) (read_loop fuel buf ptr nChars len).
Proof.
  induction fuel as [|fuel IH]; intros buf ptr nChars len; simpl;
    (apply steady_if; [|apply steady_ret]).
  - intros s s' E. discriminate E.
  - apply steady_bind; [apply steady_getchar|intros r]. cbv zeta.
    apply steady_if; [|apply steady_ret].
    destruct (fst r !! ptr); [|intros s s' E; discriminate E].
    apply steady_if; [apply steady_ret|apply IH].
Qed.

Lemma steady_read fd ptr len : steady (K := K) (_read fd ptr len).
Proof.
  unfold _read. destruct ptr; [|apply steady_ret].
  apply steady_bind; [apply steady_read_loop|intros r; apply steady_ret].
Qed.

Lemma steady_is_tx_active : steady (K := K) cy_retarget_io_is_tx_active.
Proof.
  unfold cy_retarget_io_is_tx_active.
  apply steady_bind; [apply steady_status|intros flags; apply steady_ret].
Qed.

Lemma steady_deinit cfg : steady (cy_retarget_io_deinit cfg).
Proof.
  intros s s' E. destruct (deinit_ends cfg s) as (s1 & E1 & _ & _ & Hp & Hs).
  rewrite E1 in E. inversion E; subst. auto.
Qed.

Lemma steady_synced {A} (m : M (state K) A) s s' :
  steady m -> final_state (m s) = Some s' -> prev_synced s -> prev_synced s'.
Proof.
  intros Hm E Hs. destruct (Hm s s' E) as [Hp Hl].
  unfold prev_synced, last_sent in *. congruence.
Qed.

(** The loop keeps the state in step with the line wherever it stops. *)
Lemma write_loop_synced cfg : forall fuel ptr nChars len s s',
  CY_RETARGET_IO_CONVERT_LF_TO_CRLF cfg = true ->
  prev_synced s ->
  final_state (write_loop cfg fuel ptr nChars len CY_RSLT_SUCCESS s) = Some s' ->
  prev_synced s'.
Proof.
  induction fuel as [|fuel IH]; intros ptr nChars len s s' Hc Hs E; simpl in E;
    destruct (nChars <? len); try (inversion E; subst; exact Hs); try discriminate E.
  destruct ptr as [|c ptr]; [discriminate E|].
  unfold bind at 1 in E. rewrite write_char_run in E. simpl in E.
  rewrite Hc in E. unfold bind at 1 in E. simpl in E.
  apply (IH _ _ _ _ _ Hc) in E; [exact E|].
  pose proof (synced_after_char cfg c s Hc) as Hx.
  unfold after_char in Hx. rewrite Hc in Hx. exact Hx.
Qed.

Lemma write_synced cfg fd ptr len s s' :
  CY_RETARGET_IO_CONVERT_LF_TO_CRLF cfg = true ->
  prev_synced s ->
  final_state (_write cfg fd ptr len s) = Some s' ->
  prev_synced s'.
Proof.
  intros Hc Hs E. destruct ptr as [buf|]; [|inversion E; subst; exact Hs].
  unfold _write in E. unfold bind at 1 in E.
  destruct (cy_retarget_io_mutex_acquire cfg s) as [u sa| sa | sa | sa | |] eqn:Ea;
    simpl in E; try discriminate E;
    try (inversion E; subst;
         apply (steady_synced _ s _ (steady_acquire cfg)); [now rewrite Ea|exact Hs]).
  assert (Hsa : prev_synced sa).
  { apply (steady_synced _ s _ (steady_acquire cfg)); [now rewrite Ea|exact Hs]. }
  unfold bind at 1 in E.
  destruct (write_loop cfg (Z.to_nat len) buf 0 len CY_RSLT_SUCCESS sa)
    as [n sb| sb | sb | sb | |] eqn:Eb; simpl in E; try discriminate E;
    try (inversion E; subst;
         eapply (write_loop_synced cfg _ _ _ _ sa _ Hc Hsa); now rewrite Eb).
  assert (Hsb : prev_synced sb).
  { eapply (write_loop_synced cfg _ _ _ _ sa _ Hc Hsa). now rewrite Eb. }
  apply (steady_synced (bind (cy_retarget_io_mutex_release cfg) (fun _ => ret n)) sb s');
    [|exact E|exact Hsb].
  apply steady_bind; [apply steady_release|intros _; apply steady_ret].
Qed.

(** On a build with translation, whatever calls a session has made and
    however they ended, the previous-character state is the last byte put
    on the line. *)
Lemma reachable_synced cfg s0 s :
  CY_RETARGET_IO_CONVERT_LF_TO_CRLF cfg = true ->
  prev_synced s0 ->
  reachable cfg s0 s ->
  prev_synced s.
Proof.
  intros Hc H0 Hr. induction Hr as [|s c s' Hr IH Hcall]; [exact H0|].
  destruct c as [base|fd ptr len|fd ptr len| |]; simpl in Hcall.
  - exact (steady_synced _ _ _ (steady_init cfg base) Hcall IH).
  - exact (write_synced cfg fd ptr len s s' Hc IH Hcall).
  - exact (steady_synced _ _ _ (steady_read fd ptr len) Hcall IH).
  - exact (steady_synced _ _ _ steady_is_tx_active Hcall IH).
  - exact (steady_synced _ _ _ (steady_deinit cfg) Hcall IH).
Qed.

Lemma boot_synced (k : K) hz u :
  transmitted (calls u) = [] -> prev_synced (boot k hz u).
Proof. intros Hu. unfold prev_synced, last_sent, sent. simpl. now rewrite Hu. Qed.

End SessionInvariant.

(** * Two callers: the mutex serialises them *)

Lemma write_cr_run cfg c (s : state demo_kernel) :
  write_cr cfg c CY_RSLT_SUCCESS s =
  Returns CY_RSLT_SUCCESS
    (if CY_RETARGET_IO_CONVERT_LF_TO_CRLF cfg && Byte.eqb c LF
        && negb (Byte.eqb (cy_retarget_io_stdout_prev_char s) CR)
     then after_putchar CR s else s).
Proof.
  unfold write_cr. run.
  destruct (CY_RETARGET_IO_CONVERT_LF_TO_CRLF cfg && Byte.eqb c LF
            && negb (Byte.eqb (cy_retarget_io_stdout_prev_char s) CR));
    reflexivity.
Qed.

Lemma lock_free_grants cfg s : lock_free s -> lock_grants cfg s.
Proof.
  intros (Hl & Ht & Hf) _. split; [now right|].
  simpl. rewrite Hl, Ht. simpl. auto.
Qed.

Lemma lock_free_after_write cfg l s :
  lock_free s -> lock_free (after_lock cfg (after_bytes cfg l s)).
Proof.
  intros (Hl & Ht & Hf). unfold lock_free.
  rewrite flag_after_lock, flag_after_bytes.
  unfold after_lock. destruct (RTOS_AWARE cfg); simpl;
    rewrite ?kernel_after_bytes, ?Hl, ?Ht; simpl; auto.
Qed.

(** The loop, one statement at a time, does what [write_loop] does. *)
Lemma solo_loop cfg m sf : forall ptr nChars len s,
  nChars <= len ->
  len - nChars <= Z.of_nat (length ptr) ->
  solo cfg (Release len) (after_bytes cfg (firstn (Z.to_nat (len - nChars)) ptr) s) m sf ->
  solo cfg (LoopTest ptr nChars len CY_RSLT_SUCCESS) s m sf.
Proof.
  induction ptr as [|c ptr IH]; intros nChars len s Hle Hbuf Hrest.
  - simpl in Hbuf. assert (nChars = len) by lia. subst.
    rewrite Z.sub_diag in Hrest. simpl in Hrest.
    eapply solo_step; [|exact Hrest]. simpl. now rewrite Z.ltb_irrefl.
  - destruct (Z.ltb_spec nChars len) as [Hlt|Hge].
    + replace (Z.to_nat (len - nChars)) with (S (Z.to_nat (len - (nChars + 1))))
        in Hrest by lia.
      simpl firstn in Hrest.
      change (after_bytes cfg (c :: ?l) ?x)
        with (after_bytes cfg l (after_char cfg c x)) in Hrest.
      simpl in Hbuf.
      apply Z.ltb_lt in Hlt. unfold after_char in Hrest.
      destruct (CY_RETARGET_IO_CONVERT_LF_TO_CRLF cfg) eqn:Hc;
        (eapply solo_step;
         [simpl; rewrite Hlt, write_cr_run, Hc; reflexivity|]);
        (eapply solo_step; [reflexivity|]);
        (eapply solo_step; [simpl; rewrite Hc; reflexivity|]);
        (apply IH; [lia|lia|exact Hrest]).
    + assert (nChars = len) by lia. subst.
      rewrite Z.sub_diag in Hrest. simpl in Hrest.
      eapply solo_step; [|exact Hrest]. simpl. now rewrite Z.ltb_irrefl.
Qed.

(** A caller that finds the mutex free runs, alone, to the state [_write]
    computes. *)
Lemma solo_entry cfg buf len s :
  lock_free s ->
  0 <= len <= Z.of_nat (length buf) ->
  solo cfg (Entry buf len) s len
       (after_lock cfg (after_bytes cfg (firstn (Z.to_nat len) buf) s)).
Proof.
  intros Hfree Hlen. pose proof (lock_free_grants cfg s Hfree) as Hg.
  destruct Hfree as (Hl & Ht & Hf).
  eapply solo_step.
  { simpl. rewrite Ht, Bool.andb_false_r, (acquire_run cfg s Hg). reflexivity. }
  apply solo_loop; [lia|lia|]. rewrite Z.sub_0_r.
  eapply solo_step; [|apply solo_returned].
  simpl. rewrite release_run.
  - simpl. unfold after_lock. destruct (RTOS_AWARE cfg); [|reflexivity].
    rewrite after_bytes_set_kernel. simpl. rewrite kernel_after_bytes.
    rewrite Hl, Ht. reflexivity.
  - intros HR. rewrite HR, after_bytes_set_kernel. simpl.
    rewrite flag_after_bytes, Hl, Ht. simpl. auto.
Qed.

(** A caller has one way to go. *)
Lemma solo_next cfg p s p' s1 n s' :
  solo cfg p s n s' ->
  caller_step cfg p s = Some (p', s1) ->
  solo cfg p' s1 n s'.
Proof.
  intros Hs Hstep. inversion Hs; subst.
  - discriminate.
  - congruence.
Qed.

Lemma solo_at_return cfg m s n s' :
  solo cfg (Returned m) s n s' -> n = m /\ s' = s.
Proof. intros Hs. inversion Hs; subst; [auto|discriminate]. Qed.

Lemma entry_waits cfg buf len s :
  RTOS_AWARE cfg = true -> lock_held s ->
  caller_step cfg (Entry buf len) s = None.
Proof. intros HR (_ & Ht & _). simpl. now rewrite HR, Ht. Qed.

Lemma critical_step cfg p s p' s1 :
  RTOS_AWARE cfg = true ->
  critical p = true ->
  lock_held s ->
  caller_step cfg p s = Some (p', s1) ->
  (critical p' = true /\ lock_held s1) \/ (exists n, p' = Returned n) \/ p' = Crashed.
Proof.
  intros HR Hc (Hl & Ht & Hf) Hstep.
  destruct p as [| ptr n len r | ptr n len r | ptr n len r | n | |];
    try discriminate Hc; simpl in Hstep.
  - destruct (n <? len).
    + destruct ptr as [|c ptr]; [inversion Hstep; auto|].
      unfold write_cr in Hstep. revert Hstep. run.
      case_ifs; intros E; inversion E; subst; left; (split; [reflexivity|]);
        unfold lock_held; simpl; auto.
    + inversion Hstep; subst. left. unfold lock_held. auto.
  - destruct ptr as [|c ptr]; [inversion Hstep; auto|].
    unfold write_byte in Hstep. revert Hstep. run.
    case_ifs; intros E; inversion E; subst; left; (split; [reflexivity|]);
      unfold lock_held; simpl; auto.
  - destruct ptr as [|c ptr]; [inversion Hstep; auto|].
    revert Hstep. case_ifs; run; intros E; inversion E; subst; left;
      (split; [reflexivity|]); unfold lock_held; simpl; auto.
  - right. revert Hstep.
    destruct s as [f [b k l t] ch pc hz u]. simpl in Hl, Ht, Hf. subst.
    unfold cy_retarget_io_mutex_release, CY_ASSERT. rewrite HR. run.
    unfold rtos_call. simpl.
    destruct (NDEBUG cfg); simpl; intros E; inversion E; eauto.
Qed.

Lemma enter cfg buf len s p' s1 n sf :
  lock_free s ->
  solo cfg (Entry buf len) s n sf ->
  caller_step cfg (Entry buf len) s = Some (p', s1) ->
  RTOS_AWARE cfg = true ->
  critical p' = true /\ lock_held s1 /\ solo cfg p' s1 n sf.
Proof.
  intros Hfree Hsolo Hstep HR.
  pose proof (solo_next _ _ _ _ _ _ _ Hsolo Hstep) as Hnext.
  pose proof (lock_free_grants cfg s Hfree) as Hg.
  destruct Hfree as (Hl & Ht & Hf).
  simpl in Hstep. rewrite Ht, Bool.andb_false_r, (acquire_run cfg s Hg), HR in Hstep.
  simpl in Hstep. rewrite Hl, Ht in Hstep. simpl in Hstep.
  inversion Hstep; subst. repeat split; auto.
Qed.

Lemma progress cfg p s p' s1 n sf :
  RTOS_AWARE cfg = true ->
  critical p = true ->
  lock_held s ->
  solo cfg p s n sf ->
  caller_step cfg p s = Some (p', s1) ->
  (critical p' = true /\ lock_held s1 /\ solo cfg p' s1 n sf) \/
  (p' = Returned n /\ s1 = sf).
Proof.
  intros HR Hc Hh Hsolo Hstep.
  pose proof (solo_next _ _ _ _ _ _ _ Hsolo Hstep) as Hnext.
  destruct (critical_step cfg p s p' s1 HR Hc Hh Hstep) as [[? ?]|[[m ->]| ->]].
  - left. auto.
  - right. apply solo_at_return in Hnext as [-> ->]. auto.
  - inversion Hnext. discriminate.
Qed.

Lemma serial_inv_step cfg bufA lenA bufB lenB s0 x y :
  RTOS_AWARE cfg = true ->
  lock_free s0 ->
  0 <= lenA <= Z.of_nat (length bufA) ->
  0 <= lenB <= Z.of_nat (length bufB) ->
  serial_inv cfg bufA lenA bufB lenB s0 x ->
  sys_step cfg x y ->
  serial_inv cfg bufA lenA bufB lenB s0 y.
Proof.
  intros HR Hfree HA HB Hinv Hstep.
  pose proof (lock_free_after_write cfg (firstn (Z.to_nat lenA) bufA) s0 Hfree) as HfA.
  pose proof (lock_free_after_write cfg (firstn (Z.to_nat lenB) bufB) s0 Hfree) as HfB.
  unfold serial_inv in *.
  destruct Hstep as [pA pB s pA' s' Hs | pA pB s pB' s' Hs]; cbn [fst snd] in *;
    destruct Hinv as [(-> & -> & ->)|[(Hc & -> & Hh & Hso)|[(-> & -> & ->)|
                     [(-> & Hc & Hh & Hso)|[(-> & -> & ->)|[(-> & Hc & Hh & Hso)|
                     [(-> & -> & ->)|[(Hc & -> & Hh & Hso)|(-> & -> & ->)]]]]]]]];
    try discriminate Hs;
    try (rewrite (entry_waits cfg _ _ _ HR Hh) in Hs; discriminate Hs).
  - destruct (enter cfg _ _ _ _ _ _ _ Hfree (solo_entry cfg bufA lenA s0 Hfree HA) Hs HR)
      as (? & ? & ?). right; left. auto.
  - destruct (progress cfg _ _ _ _ _ _ HR Hc Hh Hso Hs) as [(? & ? & ?)|[-> ->]].
    + right; left. auto.
    + right; right; left. auto.
  - destruct (enter cfg _ _ _ _ _ _ _ HfB (solo_entry cfg bufA lenA _ HfB HA) Hs HR)
      as (? & ? & ?). do 7 right; left. auto.
  - destruct (progress cfg _ _ _ _ _ _ HR Hc Hh Hso Hs) as [(? & ? & ?)|[-> ->]].
    + do 7 right; left. auto.
    + do 8 right. auto.
  - destruct (enter cfg _ _ _ _ _ _ _ Hfree (solo_entry cfg bufB lenB s0 Hfree HB) Hs HR)
      as (? & ? & ?). do 5 right; left. auto.
  - destruct (enter cfg _ _ _ _ _ _ _ HfA (solo_entry cfg bufB lenB _ HfA HB) Hs HR)
      as (? & ? & ?). do 3 right; left. auto.
  - destruct (progress cfg _ _ _ _ _ _ HR Hc Hh Hso Hs) as [(? & ? & ?)|[-> ->]].
    + do 3 right; left. auto.
    + do 4 right; left. auto.
  - destruct (progress cfg _ _ _ _ _ _ HR Hc Hh Hso Hs) as [(? & ? & ?)|[-> ->]].
    + do 5 right; left. auto.
    + do 6 right; left. auto.
Qed.

Lemma serial_inv_run cfg bufA lenA bufB lenB s0 x y :
  RTOS_AWARE cfg = true ->
  lock_free s0 ->
  0 <= lenA <= Z.of_nat (length bufA) ->
  0 <= lenB <= Z.of_nat (length bufB) ->
  sys_run cfg x y ->
  serial_inv cfg bufA lenA bufB lenB s0 x ->
  serial_inv cfg bufA lenA bufB lenB s0 y.
Proof.
  intros HR Hfree HA HB Hrun. induction Hrun as [x|x y z Hstep Hrun IH]; [auto|].
  intros Hinv. apply IH. eapply serial_inv_step; eauto.
Qed.

Lemma sys_run_app cfg x y z : sys_run cfg x y -> sys_run cfg y z -> sys_run cfg x z.
Proof.
  intros Hxy Hyz. induction Hxy as [x|x w y Hstep Hrun IH]; [exact Hyz|].
  eapply run_step; eauto.
Qed.

Lemma solo_runs_first cfg p q s n sf :
  solo cfg p s n sf -> sys_run cfg (p, q, s) (Returned n, q, sf).
Proof.
  intros Hs. induction Hs as [n s|p s p' s1 n sf Hstep Hs IH]; [apply run_done|].
  eapply run_step; [apply step_first; exact Hstep|exact IH].
Qed.

Lemma solo_runs_second cfg p q s n sf :
  solo cfg q s n sf -> sys_run cfg (p, q, s) (p, Returned n, sf).
Proof.
  intros Hs. induction Hs as [n s|q s q' s1 n sf Hstep Hs IH]; [apply run_done|].
  eapply run_step; [apply step_second; exact Hstep|exact IH].
Qed.

(** Two callers that start with the mutex free can both come back. *)
Lemma serial_run_exists cfg bufA lenA bufB lenB s :
  lock_free s ->
  0 <= lenA <= Z.of_nat (length bufA) ->
  0 <= lenB <= Z.of_nat (length bufB) ->
  exists s', sys_run cfg (Entry bufA lenA, Entry bufB lenB, s)
                     (Returned lenA, Returned lenB, s').
Proof.
  intros Hfree HA HB. eexists. eapply sys_run_app.
  - apply solo_runs_first, solo_entry; eassumption.
  - apply solo_runs_second, solo_entry; [|eassumption].
    now apply lock_free_after_write.
Qed.

(** C8: two callers enter [_write] together on an RTOS-aware build, the
    mutex being free.  However their steps are interleaved, when both
    have returned each has returned its own length and the state is the
    one left by the two calls made one after the other, in one order or
    the other: the line carries all that one call sends, then all that
    the other sends. *)
Theorem concurrent_writes_serialized cfg fd bufA lenA bufB lenB s nA nB s' :
  RTOS_AWARE cfg = true ->
  lock_free s ->
  0 <= lenA <= Z.of_nat (length bufA) ->
  0 <= lenB <= Z.of_nat (length bufB) ->
  sys_run cfg (Entry bufA lenA, Entry bufB lenB, s) (Returned nA, Returned nB, s') ->
  nA = lenA /\ nB = lenB /\
  ((exists s1 outA outB,
      _write cfg fd (Some bufA) lenA s = Returns lenA s1 /\
      _write cfg fd (Some bufB) lenB s1 = Returns lenB s' /\
      sent s1 = sent s ++ outA /\
      sent s' = sent s ++ outA ++ outB) \/
   (exists s1 outB outA,
      _write cfg fd (Some bufB) lenB s = Returns lenB s1 /\
      _write cfg fd (Some bufA) lenA s1 = Returns lenA s' /\
      sent s1 = sent s ++ outB /\
      sent s' = sent s ++ outB ++ outA)) /\
  (CY_RETARGET_IO_CONVERT_LF_TO_CRLF cfg = false ->
   sent s' = sent s ++ firstn (Z.to_nat lenA) bufA ++ firstn (Z.to_nat lenB) bufB \/
   sent s' = sent s ++ firstn (Z.to_nat lenB) bufB ++ firstn (Z.to_nat lenA) bufA).
Proof.
  intros HR Hfree HA HB Hrun.
  assert (Hinv : serial_inv cfg bufA lenA bufB lenB s
                            (Returned nA, Returned nB, s')).
  { eapply serial_inv_run; eauto. left. auto. }
  assert (Hseq : forall buf1 len1 buf2 len2,
             0 <= len1 <= Z.of_nat (length buf1) ->
             0 <= len2 <= Z.of_nat (length buf2) ->
             let s1 := after_lock cfg (after_bytes cfg (firstn (Z.to_nat len1) buf1) s) in
             let s2 := after_lock cfg (after_bytes cfg (firstn (Z.to_nat len2) buf2) s1) in
             (exists out1 out2,
                _write cfg fd (Some buf1) len1 s = Returns len1 s1 /\
                _write cfg fd (Some buf2) len2 s1 = Returns len2 s2 /\
                sent s1 = sent s ++ out1 /\
                sent s2 = sent s ++ out1 ++ out2) /\
             (CY_RETARGET_IO_CONVERT_LF_TO_CRLF cfg = false ->
              sent s2 = sent s ++ firstn (Z.to_nat len1) buf1 ++ firstn (Z.to_nat len2) buf2)).
  { intros buf1 len1 buf2 len2 H1 H2 s1 s2.
    pose proof (lock_free_after_write cfg (firstn (Z.to_nat len1) buf1) s Hfree) as Hf1.
    destruct (sent_after_bytes_grows cfg (firstn (Z.to_nat len1) buf1) s) as [out1 E1].
    destruct (sent_after_bytes_grows cfg (firstn (Z.to_nat len2) buf2) s1) as [out2 E2].
    split.
    - exists out1, out2. repeat split.
      + apply write_run; [now apply lock_free_grants|assumption].
      + apply write_run; [now apply lock_free_grants|assumption].
      + unfold s1. now rewrite sent_after_lock.
      + unfold s2. rewrite sent_after_lock, E2. unfold s1.
        now rewrite sent_after_lock, E1, <- app_assoc.
    - intros Hc. unfold s2, s1.
      rewrite !sent_after_lock, sent_after_bytes_plain by now left.
      rewrite sent_after_lock, sent_after_bytes_plain by now left.
      now rewrite <- app_assoc. }
  unfold serial_inv in Hinv. cbn [fst snd] in Hinv.
  destruct Hinv as [(E & _)|[(E & _)|[(_ & E & _)|[(_ & E & _)|[(EA & EB & ->)|
                   [(E & _)|[(E & _)|[(E & _)|(EA & EB & ->)]]]]]]]];
    try discriminate E.
  - inversion EA; inversion EB; subst.
    destruct (Hseq bufA lenA bufB lenB HA HB) as ((outA & outB & H1 & H2 & H3 & H4) & Hraw).
    repeat split; auto.
    left. eexists _, outA, outB. eauto.
  - inversion EA; inversion EB; subst.
    destruct (Hseq bufB lenB bufA lenA HB HA) as ((outB & outA & H1 & H2 & H3 & H4) & Hraw).
    repeat split; auto.
    right. eexists _, outB, outA. eauto.
Qed.

(** Without the mutex layer the same two callers can mix their bytes. *)
Lemma bare_callers_interleave :
  exists s',
    sys_run raw_build (Entry (bytes "ab") 2, Entry (bytes "AB") 2, ready)
            (Returned 2, Returned 2, s') /\
    sent s' = bytes "aAbB".
Proof.
  eexists. split.
  - do 3 (eapply run_step; [apply step_first; reflexivity|]).
    do 3 (eapply run_step; [apply step_second; reflexivity|]).
    do 3 (eapply run_step; [apply step_first; reflexivity|]).
    do 3 (eapply run_step; [apply step_second; reflexivity|]).
    do 3 (eapply run_step; [apply step_first; reflexivity|]).
    do 3 (eapply run_step; [apply step_second; reflexivity|]).
    apply run_done.
  - reflexivity.
Qed.

(** * The theorems at work on the small kernel *)

Lemma lock_grants_ready : lock_grants rtos_build ready.
Proof. intros _. split; [right; reflexivity|split; reflexivity]. Qed.

Lemma crlf_before_line_feed_witness :
  CY_RETARGET_IO_CONVERT_LF_TO_CRLF rtos_build = true /\
  lock_grants rtos_build ready /\
  prev_synced ready /\
  exists s1 s2,
    _write rtos_build 1 (Some (bytes "a" ++ LF :: bytes "b"))
           (Z.of_nat (length (bytes "a"))) ready
    = Returns (Z.of_nat (length (bytes "a"))) s1 /\
    _write rtos_build 1 (Some (bytes "a" ++ LF :: bytes "b"))
           (Z.of_nat (length (bytes "a")) + 1) ready
    = Returns (Z.of_nat (length (bytes "a")) + 1) s2 /\
    (LF = LF /\ last_sent s1 <> CR -> sent s2 = sent s1 ++ [CR; LF]) /\
    (~ (LF = LF /\ last_sent s1 <> CR) -> sent s2 = sent s1 ++ [LF]) /\
    (last_sent ready <> CR ->
     exists s', _write rtos_build 1 (Some [LF]) 1 ready = Returns 1 s' /\
                sent s' = sent ready ++ [CR; LF]) /\
    (exists s', _write rtos_build 1 (Some [CR; LF]) 2 ready = Returns 2 s' /\
                sent s' = sent ready ++ [CR; LF]).
Proof.
  split; [reflexivity|]. split; [exact lock_grants_ready|]. split; [reflexivity|].
  apply (crlf_before_line_feed rtos_build 1 (bytes "a") (bytes "b") LF ready).
  - reflexivity.
  - exact lock_grants_ready.
  - reflexivity.
Defined.

Lemma prev_char_spans_calls_witness :
  CY_RETARGET_IO_CONVERT_LF_TO_CRLF rtos_build = true /\
  prev_synced ready /\
  0 <= 2 <= Z.of_nat (length (bytes "a" ++ [CR])) /\
  1 <= 2 <= 1 + Z.of_nat (length (bytes "b")) /\
  exists s1 s2,
    _write rtos_build 1 (Some (bytes "a" ++ [CR])) 2 ready = Returns 2 s1 /\
    (forall k, 0 < k <= 2 ->
       exists sk, _write rtos_build 1 (Some (bytes "a" ++ [CR])) k ready = Returns k sk /\
                  (bytes "a" ++ [CR]) !! Z.to_nat (k - 1)
                  = Some (cy_retarget_io_stdout_prev_char sk) /\
                  last_sent sk = cy_retarget_io_stdout_prev_char sk) /\
    cy_retarget_io_stdout_prev_char s1 = last_sent s1 /\
    _write rtos_build 1 (Some (LF :: bytes "b")) 2 s1 = Returns 2 s2 /\
    (last_sent s1 <> CR -> exists tail, sent s2 = sent s1 ++ CR :: LF :: tail) /\
    (last_sent s1 = CR -> exists tail, sent s2 = sent s1 ++ LF :: tail).
Proof.
  split; [reflexivity|]. split; [reflexivity|].
  split; [simpl; lia|]. split; [simpl; lia|].
  apply (prev_char_spans_calls rtos_build 1 (bytes "a" ++ [CR]) (bytes "b") 2 2 ready).
  - reflexivity.
  - exact lock_grants_ready.
  - intros _. split; [right; reflexivity|split; reflexivity].
  - reflexivity.
  - simpl; lia.
  - simpl; lia.
Defined.

Lemma read_stops_at_terminator_witness :
  let s := demo_session 8000000 (quiet_line (bytes "hello" ++ LF :: bytes "world")) in
  let buf := repeat x00 10 in
  rx_line (uart s) = (bytes "hello" ++ [LF]) ++ bytes "world" /\
  Z.of_nat (length (bytes "hello" ++ [LF])) <= Z.max 0 10 /\
  (length (bytes "hello" ++ [LF]) <= length buf)%nat /\
  exists s',
    _read 0 (Some buf) 10 s =
    Returns (Z.of_nat (length (bytes "hello" ++ [LF])),
             Some ((bytes "hello" ++ [LF]) ++ skipn (length (bytes "hello" ++ [LF])) buf)) s' /\
    rx_line (uart s') = bytes "world" /\
    sent s' = sent s.
Proof.
  intros s buf.
  split; [reflexivity|]. split; [simpl; lia|]. split; [simpl; lia|].
  apply (proj1 (@read_stops_at_terminator demo_kernel) 0 buf 10
               (bytes "hello" ++ [LF]) (bytes "world") s).
  - reflexivity.
  - intros i c Hi Hc. simpl in Hi.
    do 5 (destruct i as [|i]; [inversion Hc; split; discriminate|]).
    lia.
  - simpl; lia.
  - right. exists (bytes "hello"), LF. split; [reflexivity|now left].
  - simpl; lia.
Defined.

Lemma no_line_feed_same_output_witness :
  ~ In LF (bytes "ok" ++ [CR]) /\
  lock_grants rtos_build ready /\
  exists s_on s_off,
    _write (with_translation true rtos_build) 1 (Some (bytes "ok" ++ [CR]))
           (Z.of_nat (length (bytes "ok" ++ [CR]))) ready
    = Returns (Z.of_nat (length (bytes "ok" ++ [CR]))) s_on /\
    _write (with_translation false rtos_build) 1 (Some (bytes "ok" ++ [CR]))
           (Z.of_nat (length (bytes "ok" ++ [CR]))) ready
    = Returns (Z.of_nat (length (bytes "ok" ++ [CR]))) s_off /\
    sent s_on = sent ready ++ (bytes "ok" ++ [CR]) /\
    sent s_off = sent ready ++ (bytes "ok" ++ [CR]).
Proof.
  assert (Hn : ~ In LF (bytes "ok" ++ [CR])).
  { simpl. intros [E|[E|[E|[]]]]; discriminate E. }
  split; [exact Hn|]. split; [exact lock_grants_ready|].
  apply (no_line_feed_same_output rtos_build 1 (bytes "ok" ++ [CR]) ready Hn).
  exact lock_grants_ready.
Defined.

Lemma write_returns_len_witness :
  0 <= 3 <= Z.of_nat (length (bytes "a" ++ [LF; LF])) /\
  (forall n s', _write rtos_build 1 (Some (bytes "a" ++ [LF; LF])) 3 ready = Returns n s' ->
                n = 3) /\
  (exists s', _write rtos_build 1 (Some (bytes "a" ++ [LF; LF])) 3 ready = Returns 3 s').
Proof.
  assert (Hl : 0 <= 3 <= Z.of_nat (length (bytes "a" ++ [LF; LF]))) by (simpl; lia).
  split; [exact Hl|].
  destruct (write_returns_len rtos_build 1 (bytes "a" ++ [LF; LF]) 3 ready Hl)
    as (_ & _ & Hn & Hg & _).
  split; [exact Hn|]. apply Hg. exact lock_grants_ready.
Defined.

Lemma init_creates_lock_once_witness :
  let s := boot (mkKernel 1 0 false false) 8000000 (quiet_line []) in
  exists rslt s',
    cy_retarget_io_init rtos_build 0x48000000 s = Returns rslt s' /\
    cy_retarget_io_uart_obj s' = 0x48000000 /\
    rslt = CY_RSLT_SUCCESS /\
    created (kernel s') = 1%nat /\
    forall base',
      cy_retarget_io_init rtos_build base' s' =
      Returns CY_RSLT_SUCCESS (set_channel base' s').
Proof.
  intros s.
  destruct (init_creates_lock_once rtos_build 0x48000000 s)
    as (rslt & s' & E & Hch & _ & _ & Hnew & _ & _ & Hre).
  exists rslt, s'. destruct (Hnew eq_refl eq_refl) as (Hr & Hk & _).
  split; [exact E|]. split; [exact Hch|].
  assert (Hs : rslt = CY_RSLT_SUCCESS) by (rewrite Hr; reflexivity).
  split; [exact Hs|]. split; [rewrite Hk; reflexivity|].
  exact (Hre Hs).
Defined.

Lemma flag_survives_deinit_witness :
  let s0 := boot (mkKernel 1 0 false false) 8000000 (quiet_line []) in
  let s1 := mkState true (mkKernel 0 1 true false) 0x48000000 x00 8000000
                    (quiet_line []) in
  let s2 := mkState true (mkKernel 0 1 false false) 0x48000000 x00 8000000
                    (mkUsic [] [GetStatusFlag 0x48000000] 0 (Some 0)) in
  cy_retarget_io_init rtos_build 0x48000000 s0 = Returns CY_RSLT_SUCCESS s1 /\
  cy_retarget_io_deinit rtos_build s1 = Returns tt s2 /\
  cy_retarget_io_mutex_initialized s2 = true /\
  live (kernel s2) = false /\
  (forall base',
     cy_retarget_io_init rtos_build base' s2 =
     Returns CY_RSLT_SUCCESS (set_channel base' s2)) /\
  cy_retarget_io_mutex_acquire rtos_build s2 = Aborts s2.
Proof.
  intros s0 s1 s2.
  assert (Hi : cy_retarget_io_init rtos_build 0x48000000 s0 = Returns CY_RSLT_SUCCESS s1)
    by reflexivity.
  assert (Hd : cy_retarget_io_deinit rtos_build s1 = Returns tt s2) by reflexivity.
  destruct (flag_survives_deinit rtos_build 0x48000000 s0 s1 s2 eq_refl Hi Hd)
    as (_ & _ & Hf & _ & _ & Hre & _ & Hacq & _).
  split; [exact Hi|]. split; [exact Hd|]. split; [exact Hf|].
  split; [reflexivity|]. split; [exact Hre|].
  rewrite Hacq. reflexivity.
Defined.

Lemma concurrent_writes_serialized_witness :
  let sAB := after_lock rtos_build
               (after_bytes rtos_build (bytes "B")
                  (after_lock rtos_build (after_bytes rtos_build (bytes "A") ready))) in
  RTOS_AWARE rtos_build = true /\
  lock_free ready /\
  sys_run rtos_build (Entry (bytes "A") 1, Entry (bytes "B") 1, ready)
          (Returned 1, Returned 1, sAB) /\
  ((exists s1 outA outB,
      _write rtos_build 1 (Some (bytes "A")) 1 ready = Returns 1 s1 /\
      _write rtos_build 1 (Some (bytes "B")) 1 s1 = Returns 1 sAB /\
      sent s1 = sent ready ++ outA /\
      sent sAB = sent ready ++ outA ++ outB) \/
   (exists s1 outB outA,
      _write rtos_build 1 (Some (bytes "B")) 1 ready = Returns 1 s1 /\
      _write rtos_build 1 (Some (bytes "A")) 1 s1 = Returns 1 sAB /\
      sent s1 = sent ready ++ outB /\
      sent sAB = sent ready ++ outB ++ outA)).
Proof.
  intros sAB.
  assert (Hfree : lock_free ready) by (repeat split).
  assert (Hrun : sys_run rtos_build (Entry (bytes "A") 1, Entry (bytes "B") 1, ready)
                         (Returned 1, Returned 1, sAB)).
  { do 6 (eapply run_step; [apply step_first; reflexivity|]).
    do 6 (eapply run_step; [apply step_second; reflexivity|]).
    apply run_done. }
  split; [reflexivity|]. split; [exact Hfree|]. split; [exact Hrun|].
  destruct (concurrent_writes_serialized rtos_build 1 (bytes "A") 1 (bytes "B") 1
              ready 1 1 sAB eq_refl Hfree) as (_ & _ & Hser & _);
    [simpl; lia|simpl; lia|exact Hrun|exact Hser].
Defined.

(** * More of the module: the IAR hooks *)

Section IarHooks.
Context {K : Type} `{CyRtos K}.
Implicit Types (s : state K) (cfg : config).

(** X1: on a build without the mutex layer (every IAR build is one) the
    IAR write hook called on the standard output is the newlib hook: same
    result and same state, whatever the buffer, null or too short
    included; on any other handle it returns [_LLIO_ERROR] and touches
    nothing. *)
Theorem iar_write_is_newlib_write llio_stdout llio_error cfg :
  RTOS_AWARE cfg = false ->
  (forall fd buffer size s,
     __write llio_stdout llio_error cfg llio_stdout buffer size s =
     _write cfg fd buffer size s) /\
  (forall handle buffer size s,
     handle <> llio_stdout ->
     __write llio_stdout llio_error cfg handle buffer size s = Returns llio_error s).
Proof.
  intros HR. split.
  - intros fd buffer size s. unfold __write, _write.
    rewrite Z.eqb_refl. simpl. destruct buffer as [buf|]; [|reflexivity].
    unfold cy_retarget_io_mutex_acquire, cy_retarget_io_mutex_release.
    rewrite HR. unfold bind, ret.
    now destruct (write_loop cfg (Z.to_nat size) buf 0 size CY_RSLT_SUCCESS s).
  - intros handle buffer size s Hh. unfold __write.
    apply Z.eqb_neq in Hh. now rewrite Hh.
Qed.

End IarHooks.

Lemma iar_write_is_newlib_write_witness :
  RTOS_AWARE raw_build = false /\
  (forall fd buffer size (s : state demo_kernel),
     __write yfuns_LLIO_STDOUT yfuns_LLIO_ERROR raw_build yfuns_LLIO_STDOUT buffer size s =
     _write raw_build fd buffer size s) /\
  (forall handle buffer size (s : state demo_kernel),
     handle <> yfuns_LLIO_STDOUT ->
     __write yfuns_LLIO_STDOUT yfuns_LLIO_ERROR raw_build handle buffer size s
     = Returns yfuns_LLIO_ERROR s).
Proof.
  split; [reflexivity|].
  apply (iar_write_is_newlib_write (H := demo_rtos) yfuns_LLIO_STDOUT yfuns_LLIO_ERROR raw_build).
  reflexivity.
Defined.


Section IarRead.
Context {K : Type} `{CyRtos K}.
Implicit Types (s : state K) (buf : list byte).

(** X2: the IAR read hook on the standard input takes exactly one byte off
    the line whatever [size] says (zero included), stores it in the first
    cell of the buffer and returns 1; with the line silent it never comes
    back; on any other handle it returns [_LLIO_ERROR] and touches
    nothing. *)
Theorem iar_read_takes_one_byte llio_stdin llio_error :
  (forall buf size c rest s,
     rx_line (uart s) = c :: rest ->
     (0 < length buf)%nat ->
     exists s',
       __read llio_stdin llio_error llio_stdin (Some buf) size s
       = Returns (1, Some (c :: tl buf)) s' /\
       rx_line (uart s') = rest /\
       sent s' = sent s) /\
  (forall buf size s,
     rx_line (uart s) = [] ->
     exists s', __read llio_stdin llio_error llio_stdin (Some buf) size s = Blocks s') /\
  (forall handle buffer size s,
     handle <> llio_stdin ->
     __read llio_stdin llio_error handle buffer size s = Returns (llio_error, buffer) s).
Proof.
  split; [|split].
  - intros buf size c rest s Hrx Hlen. unfold __read. rewrite Z.eqb_refl. simpl.
    destruct (getchar_run buf 0%nat c rest s Hrx Hlen) as (s' & E & Hr & Hs).
    exists s'. unfold bind. rewrite E. simpl.
    destruct buf as [|b buf]; [simpl in Hlen; lia|]. auto.
  - intros buf size s Hrx. unfold __read. rewrite Z.eqb_refl. simpl.
    destruct (getchar_blocks buf 0%nat s Hrx) as (s' & E).
    exists s'. unfold bind. now rewrite E.
  - intros handle buffer size s Hh. unfold __read.
    apply Z.eqb_neq in Hh. rewrite Hh. simpl. now destruct buffer.
Qed.

End IarRead.

Lemma iar_read_takes_one_byte_witness :
  let s := demo_session 8000000 (quiet_line (bytes "ok")) in
  rx_line (uart s) = "o"%byte :: bytes "k" /\
  (0 < length (bytes "....."))%nat /\
  exists s',
    __read yfuns_LLIO_STDIN yfuns_LLIO_ERROR yfuns_LLIO_STDIN (Some (bytes ".....")) 0 s
    = Returns (1, Some ("o"%byte :: tl (bytes "....."))) s' /\
    rx_line (uart s') = bytes "k" /\
    sent s' = sent s.
Proof.
  intros s. split; [reflexivity|]. split; [simpl; lia|].
  apply (proj1 (iar_read_takes_one_byte (K := demo_kernel) yfuns_LLIO_STDIN yfuns_LLIO_ERROR)).
  - reflexivity.
  - simpl; lia.
Defined.

(** * More of the module: the read path at its edges *)

Section ReadEdges.
Context {K : Type} `{CyRtos K}.
Implicit Types (s : state K) (buf : list byte).

Lemma getchar_silent buf (ptr : nat) s :
  rx_line (uart s) = [] ->
  exists s',
    cy_retarget_io_getchar buf ptr s = Blocks s' /\
    rx_line (uart s') = [] /\
    sent s' = sent s.
Proof.
  intros Hrx. unfold cy_retarget_io_getchar.
  unfold bind at 1. unfold XMC_UART_CH_GetStatusFlag, status_word.
  rewrite Hrx, receive_flag_clear. eexists. split; [reflexivity|].
  split; [exact Hrx|]. unfold sent. simpl. rewrite transmitted_app. apply app_nil_r.
Qed.

Lemma read_loop_blocks : forall (got : list byte) fuel buf (ptr : nat) nChars len s,
  rx_line (uart s) = got ->
  (forall c, In c got -> is_terminator c = false) ->
  nChars + Z.of_nat (length got) < len ->
  (ptr + length got <= length buf)%nat ->
  (length got < fuel)%nat ->
  exists s',
    read_loop fuel buf ptr nChars len s = Blocks s' /\
    rx_line (uart s') = [] /\
    sent s' = sent s.
Proof.
  induction got as [|c got IH]; intros fuel buf ptr nChars len s Hrx Hnt Hlen Hroom Hfuel;
    (destruct fuel as [|fuel]; [simpl in Hfuel; lia|]); simpl read_loop;
    simpl in Hlen, Hroom, Hfuel;
    (destruct (Z.ltb_spec nChars len) as [_|]; [|lia]).
  - destruct (getchar_silent buf ptr s Hrx) as (s' & E & Hr & Hs).
    exists s'. unfold bind. now rewrite E.
  - destruct (getchar_run buf ptr c got s Hrx) as (s1 & E & Hr & Hs); [lia|].
    unfold bind at 1. rewrite E. cbn [fst snd].
    rewrite Z.eqb_refl, list_lookup_insert_eq by lia.
    fold (is_terminator c). rewrite (Hnt c) by now left.
    destruct (IH fuel (<[ptr := c]> buf) (S ptr) (nChars + 1) len s1)
      as (s' & E' & Hr' & Hs'); auto.
    + intros c' Hc'. apply Hnt. now right.
    + lia.
    + rewrite length_insert. lia.
    + lia.
    + exists s'. rewrite E'. repeat split; auto. congruence.
Qed.

(** X3: a read that wants more bytes than the line will ever carry, with
    no line feed or carriage return among those that come, takes them all
    and then never comes back: there is no timeout. *)
Theorem read_blocks_when_line_runs_out fd buf (len : Z) s :
  (forall c, In c (rx_line (uart s)) -> c <> LF /\ c <> CR) ->
  Z.of_nat (length (rx_line (uart s))) < len ->
  (length (rx_line (uart s)) <= length buf)%nat ->
  exists s',
    _read fd (Some buf) len s = Blocks s' /\
    rx_line (uart s') = [] /\
    sent s' = sent s.
Proof.
  intros Hnt Hlen Hroom.
  destruct (read_loop_blocks (rx_line (uart s)) (Z.to_nat len) buf 0%nat 0 len s)
    as (s' & E & Hr & Hs); auto; try lia.
  - intros c Hc. apply not_terminator_iff. auto.
  - exists s'. unfold _read, bind. rewrite E. auto.
Qed.

Lemma read_loop_safe : forall fuel buf (ptr : nat) nChars len s,
  len - nChars <= Z.of_nat fuel ->
  Z.of_nat ptr + (len - nChars) <= Z.of_nat (length buf) ->
  match read_loop fuel buf ptr nChars len s with
  | Returns r s' =>
      nChars <= fst r <= Z.max nChars len /\
      length (snd r) = length buf /\
      skipn (ptr + Z.to_nat (fst r - nChars)) (snd r)
      = skipn (ptr + Z.to_nat (fst r - nChars)) buf
  | Blocks _ => True
  | _ => False
  end.
Proof.
  induction fuel as [|fuel IH]; intros buf ptr nChars len s Hfuel Hroom; simpl read_loop;
    destruct (Z.ltb_spec nChars len) as [Hlt|Hge]; try (simpl in Hfuel; lia);
    try (unfold ret; cbn [fst snd]; rewrite Z.sub_diag;
         repeat split; auto; lia).
  destruct (rx_line (uart s)) as [|c rest] eqn:Hrx.
  - destruct (getchar_silent buf ptr s Hrx) as (s' & E & _).
    unfold bind. now rewrite E.
  - destruct (getchar_run buf ptr c rest s Hrx) as (s1 & E & _); [lia|].
    unfold bind at 1. rewrite E. cbn [fst snd].
    rewrite Z.eqb_refl, list_lookup_insert_eq by lia.
    destruct (Byte.eqb c LF || Byte.eqb c CR).
    + unfold ret. cbn [fst snd]. rewrite length_insert.
      replace (nChars + 1 - nChars) with 1 by lia.
      repeat split; try lia.
      apply drop_insert_lt. simpl. lia.
    + specialize (IH (<[ptr := c]> buf) (S ptr) (nChars + 1) len s1).
      rewrite length_insert in IH.
      destruct (read_loop fuel (<[ptr := c]> buf) (S ptr) (nChars + 1) len s1)
        as [r s'| | | | |]; try (apply IH; lia); auto.
      destruct IH as (Hn & Hl & Hd); [lia|lia|].
      repeat split; try lia.
      replace (ptr + Z.to_nat (fst r - nChars))%nat
        with (S ptr + Z.to_nat (fst r - (nChars + 1)))%nat by lia.
      rewrite Hd. apply drop_insert_lt. lia.
Qed.

(** X4: a read into a buffer of at least [len] cells never stores outside
    the first [len] of them and never fails: it either blocks on a silent
    line or returns a count between 0 and [len] with the buffer as long as
    before and unchanged from that count on; in both cases it has sent
    nothing and left the previous-character state alone. *)
Theorem read_stays_in_bounds fd buf (len : Z) s :
  len <= Z.of_nat (length buf) ->
  (exists n buf' s',
      _read fd (Some buf) len s = Returns (n, Some buf') s' /\
      0 <= n <= Z.max 0 len /\
      length buf' = length buf /\
      skipn (Z.to_nat n) buf' = skipn (Z.to_nat n) buf /\
      sent s' = sent s /\
      cy_retarget_io_stdout_prev_char s' = cy_retarget_io_stdout_prev_char s) \/
  (exists s',
      _read fd (Some buf) len s = Blocks s' /\
      sent s' = sent s /\
      cy_retarget_io_stdout_prev_char s' = cy_retarget_io_stdout_prev_char s).
Proof.
  intros Hlen.
  pose proof (read_loop_safe (Z.to_nat len) buf 0%nat 0 len s) as Hsafe.
  pose proof (steady_read fd (Some buf) len s) as Hst.
  unfold _read, bind in *.
  destruct (read_loop (Z.to_nat len) buf 0%nat 0 len s) as [r s'| | s' | s' | |];
    try (exfalso; apply Hsafe; lia).
  - left. destruct Hsafe as (Hn & Hl & Hd); [lia|lia|].
    destruct (Hst s' eq_refl) as [Hp Hs].
    exists (fst r), (snd r), s'. unfold ret. rewrite Z.sub_0_r in Hd.
    repeat split; auto; lia.
  - right. destruct (Hst s' eq_refl) as [Hp Hs]. eauto.
Qed.

End ReadEdges.

Lemma read_blocks_when_line_runs_out_witness :
  let s := demo_session 8000000 (quiet_line (bytes "abc")) in
  exists s',
    _read 0 (Some (bytes "........")) 8 s = Blocks s' /\
    rx_line (uart s') = [] /\
    sent s' = sent s.
Proof.
  intros s.
  apply (read_blocks_when_line_runs_out (K := demo_kernel) 0 (bytes "........") 8 s).
  - simpl. intros c [<-|[<-|[<-|[]]]]; split; discriminate.
  - simpl; lia.
  - simpl; lia.
Defined.

Lemma read_stays_in_bounds_witness :
  let s := demo_session 8000000 (quiet_line (bytes "abcdef")) in
  exists n buf' s',
    _read 0 (Some (bytes "....")) 4 s = Returns (n, Some buf') s' /\
    0 <= n <= Z.max 0 4 /\
    length buf' = length (bytes "....").
Proof.
  intros s.
  destruct (read_stays_in_bounds (K := demo_kernel) 0 (bytes "....") 4 s)
    as [(n & buf' & s' & E & Hn & Hl & _)|(s' & E & _)].
  - simpl; lia.
  - exists n, buf', s'. auto.
  - discriminate E.
Defined.

(** * More of the module: the write path at its edges *)

Section WriteEdges.
Context {K : Type} `{CyRtos K}.
Implicit Types (s : state K) (c : byte) (cfg : config).

(** X5: on an RTOS-aware build a write that does not get the mutex puts
    nothing on the line.  With the flag clear a debug build halts in the
    assertion before any call to the kernel; when the kernel refuses the
    mutex the call ends in [abort()]. *)
Theorem write_sends_nothing_without_lock cfg fd (buf : list byte) (len : Z) s :
  RTOS_AWARE cfg = true ->
  (NDEBUG cfg = false -> cy_retarget_io_mutex_initialized s = false ->
   _write cfg fd (Some buf) len s = Halts s) /\
  (NDEBUG cfg = true \/ cy_retarget_io_mutex_initialized s = true ->
   fst (cy_rtos_get_mutex (kernel s)) <> CY_RSLT_SUCCESS ->
   _write cfg fd (Some buf) len s
   = Aborts (set_kernel (snd (cy_rtos_get_mutex (kernel s))) s) /\
   sent (set_kernel (snd (cy_rtos_get_mutex (kernel s))) s) = sent s).
Proof.
  intros HR. split.
  - intros Hn Hf. unfold _write, cy_retarget_io_mutex_acquire, CY_ASSERT.
    rewrite HR, Hn. run. now rewrite Hf.
  - intros Ha Hget. split; [|reflexivity].
    apply Z.eqb_neq in Hget.
    unfold _write, cy_retarget_io_mutex_acquire, CY_ASSERT. rewrite HR. run.
    unfold rtos_call.
    destruct Ha as [-> | ->]; [|destruct (NDEBUG cfg)]; simpl;
      simpl in Hget; rewrite Hget; reflexivity.
Qed.

(** X6: when the kernel grants the mutex but refuses to take it back, the
    write ends in [abort()] after every byte has gone out. *)
Theorem write_aborts_on_failed_release cfg fd (buf : list byte) (len : Z) s :
  RTOS_AWARE cfg = true ->
  NDEBUG cfg = true \/ cy_retarget_io_mutex_initialized s = true ->
  fst (cy_rtos_get_mutex (kernel s)) = CY_RSLT_SUCCESS ->
  fst (cy_rtos_set_mutex (snd (cy_rtos_get_mutex (kernel s)))) <> CY_RSLT_SUCCESS ->
  0 <= len <= Z.of_nat (length buf) ->
  exists s' sl,
    _write cfg fd (Some buf) len s = Aborts s' /\
    write_loop cfg (Z.to_nat len) buf 0 len CY_RSLT_SUCCESS s = Returns len sl /\
    sent s' = sent sl /\
    cy_retarget_io_stdout_prev_char s' = cy_retarget_io_stdout_prev_char sl.
Proof.
  intros HR Ha Hget Hset Hlen. apply Z.eqb_neq in Hset.
  enough (exists s',
    _write cfg fd (Some buf) len s = Aborts s' /\
    sent s' = sent (after_bytes cfg (firstn (Z.to_nat len) buf) s) /\
    cy_retarget_io_stdout_prev_char s'
    = cy_retarget_io_stdout_prev_char (after_bytes cfg (firstn (Z.to_nat len) buf) s))
    as (s' & E & Hs & Hp).
  { exists s', (after_bytes cfg (firstn (Z.to_nat len) buf) s).
    split; [exact E|]. split; [|auto].
    rewrite write_loop_run by lia. now rewrite Z.sub_0_r. }
  unfold _write.
  assert (Eacq : cy_retarget_io_mutex_acquire cfg s
                 = Returns tt (set_kernel (snd (cy_rtos_get_mutex (kernel s))) s)).
  { unfold cy_retarget_io_mutex_acquire, CY_ASSERT. rewrite HR. run. unfold rtos_call.
    destruct Ha as [-> | ->]; [|destruct (NDEBUG cfg)]; simpl;
      rewrite Hget; reflexivity. }
  unfold bind at 1. rewrite Eacq.
  unfold bind at 1. rewrite write_loop_run by lia. rewrite Z.sub_0_r.
  rewrite after_bytes_set_kernel.
  unfold bind at 1.
  unfold cy_retarget_io_mutex_release, CY_ASSERT. rewrite HR. run.
  rewrite flag_after_bytes. unfold rtos_call. simpl.
  destruct Ha as [Hn | Hf]; [rewrite Hn|rewrite Hf; destruct (NDEBUG cfg)]; simpl;
    simpl in Hset; rewrite Hset; eexists; (split; [reflexivity|]); split; reflexivity.
Qed.

(** X7: a write of no bytes (a length of zero or below) on a real buffer
    returns 0 and sends nothing, yet it still takes the mutex and gives it
    back. *)
Theorem write_of_nothing_still_locks cfg fd (buf : list byte) (len : Z) s :
  len <= 0 ->
  lock_grants cfg s ->
  _write cfg fd (Some buf) len s = Returns 0 (after_lock cfg s) /\
  uart (after_lock cfg s) = uart s /\
  (RTOS_AWARE cfg = true ->
   kernel (after_lock cfg s)
   = snd (cy_rtos_set_mutex (snd (cy_rtos_get_mutex (kernel s))))).
Proof.
  intros Hlen Hg. split; [|split].
  - unfold _write. unfold bind at 1. rewrite (acquire_run cfg s Hg).
    assert (El : forall s0, write_loop cfg (Z.to_nat len) buf 0 len CY_RSLT_SUCCESS s0
                            = Returns 0 s0).
    { intros s0. replace (Z.to_nat len) with 0%nat by lia. simpl.
      destruct (Z.ltb_spec 0 len); [lia|reflexivity]. }
    unfold bind at 1. rewrite El.
    unfold bind at 1. rewrite release_run.
    + unfold after_lock, ret. now destruct (RTOS_AWARE cfg).
    + intros HR. destruct (Hg HR) as (Ha & Hget & Hset). rewrite HR. auto.
  - unfold after_lock. now destruct (RTOS_AWARE cfg).
  - intros HR. unfold after_lock. now rewrite HR.
Qed.

Lemma sent_after_bytes_set_kernel cfg l k s :
  sent (after_bytes cfg l (set_kernel k s)) = sent (after_bytes cfg l s).
Proof. now rewrite after_bytes_set_kernel. Qed.

Lemma after_bytes_after_lock cfg l s :
  after_bytes cfg l (after_lock cfg s) =
  (if RTOS_AWARE cfg
   then set_kernel (snd (cy_rtos_set_mutex (snd (cy_rtos_get_mutex (kernel s)))))
                   (after_bytes cfg l s)
   else after_bytes cfg l s).
Proof.
  unfold after_lock. destruct (RTOS_AWARE cfg); [|reflexivity].
  apply after_bytes_set_kernel.
Qed.

(** X8: call boundaries do not show on the line: writing [a] and then
    [b] in two calls sends what one call on [a ++ b] sends, and leaves the
    same previous character. *)
Theorem write_in_two_calls cfg fd (a b : list byte) s :
  lock_grants cfg s ->
  lock_grants cfg (after_lock cfg s) ->
  exists s1 s2 s12,
    _write cfg fd (Some a) (Z.of_nat (length a)) s = Returns (Z.of_nat (length a)) s1 /\
    _write cfg fd (Some b) (Z.of_nat (length b)) s1 = Returns (Z.of_nat (length b)) s2 /\
    _write cfg fd (Some (a ++ b)) (Z.of_nat (length a) + Z.of_nat (length b)) s
    = Returns (Z.of_nat (length a) + Z.of_nat (length b)) s12 /\
    sent s2 = sent s12 /\
    cy_retarget_io_stdout_prev_char s2 = cy_retarget_io_stdout_prev_char s12.
Proof.
  intros Hg Hg'.
  assert (Ha : firstn (Z.to_nat (Z.of_nat (length a))) a = a)
    by (rewrite Nat2Z.id; apply firstn_all).
  assert (Hb : firstn (Z.to_nat (Z.of_nat (length b))) b = b)
    by (rewrite Nat2Z.id; apply firstn_all).
  assert (Hab : firstn (Z.to_nat (Z.of_nat (length a) + Z.of_nat (length b))) (a ++ b)
                = a ++ b).
  { rewrite <- Nat2Z.inj_add, Nat2Z.id, <- length_app. apply firstn_all. }
  set (s1 := after_lock cfg (after_bytes cfg a s)).
  assert (Hg1 : lock_grants cfg s1).
  { apply (lock_grants_same cfg (after_lock cfg s)); [| |exact Hg'].
    - apply kernel_after_lock_bytes.
    - unfold s1. now rewrite !flag_after_lock, flag_after_bytes. }
  exists s1, (after_lock cfg (after_bytes cfg b s1)),
         (after_lock cfg (after_bytes cfg (a ++ b) s)).
  split; [rewrite write_run by (auto; lia); now rewrite Ha|].
  split; [rewrite write_run by (auto; lia); now rewrite Hb|].
  split.
  { rewrite write_run; [now rewrite Hab|auto|rewrite length_app; lia]. }
  unfold s1. rewrite after_bytes_app, after_bytes_after_lock.
  unfold after_lock. destruct (RTOS_AWARE cfg); split; reflexivity.
Qed.

End WriteEdges.

Lemma write_sends_nothing_without_lock_witness :
  let s := boot (mkKernel 1 0 false false) 8000000 (quiet_line []) in
  RTOS_AWARE rtos_build = true /\
  _write rtos_build 1 (Some (bytes "hi")) 2 s = Halts s.
Proof.
  intros s. split; [reflexivity|].
  apply (proj1 (write_sends_nothing_without_lock rtos_build 1 (bytes "hi") 2 s eq_refl));
    reflexivity.
Defined.

Lemma write_aborts_on_failed_release_witness :
  let s := mkState true Jammed 0x48000000 x00 8000000 (quiet_line []) in
  exists s' sl,
    _write rtos_build 1 (Some (bytes "hi")) 2 s = Aborts s' /\
    write_loop rtos_build (Z.to_nat 2) (bytes "hi") 0 2 CY_RSLT_SUCCESS s = Returns 2 sl /\
    sent s' = sent sl /\
    cy_retarget_io_stdout_prev_char s' = cy_retarget_io_stdout_prev_char sl.
Proof.
  intros s.
  apply (write_aborts_on_failed_release rtos_build 1 (bytes "hi") 2 s).
  - reflexivity.
  - right; reflexivity.
  - reflexivity.
  - discriminate.
  - simpl; lia.
Defined.

Lemma write_of_nothing_still_locks_witness :
  -1 <= 0 /\
  lock_grants rtos_build ready /\
  _write rtos_build 1 (Some (bytes "hi")) (-1) ready
  = Returns 0 (after_lock rtos_build ready) /\
  uart (after_lock rtos_build ready) = uart ready.
Proof.
  split; [lia|]. split; [exact lock_grants_ready|].
  destruct (write_of_nothing_still_locks rtos_build 1 (bytes "hi") (-1) ready)
    as (E & Hu & _); [lia|exact lock_grants_ready|].
  split; [exact E|exact Hu].
Defined.

Lemma write_in_two_calls_witness :
  lock_grants rtos_build ready /\
  exists s1 s2 s12,
    _write rtos_build 1 (Some (bytes "a" ++ [CR])) (Z.of_nat (length (bytes "a" ++ [CR]))) ready
    = Returns (Z.of_nat (length (bytes "a" ++ [CR]))) s1 /\
    _write rtos_build 1 (Some (LF :: bytes "b")) (Z.of_nat (length (LF :: bytes "b"))) s1
    = Returns (Z.of_nat (length (LF :: bytes "b"))) s2 /\
    _write rtos_build 1 (Some ((bytes "a" ++ [CR]) ++ LF :: bytes "b"))
           (Z.of_nat (length (bytes "a" ++ [CR])) + Z.of_nat (length (LF :: bytes "b"))) ready
    = Returns (Z.of_nat (length (bytes "a" ++ [CR])) + Z.of_nat (length (LF :: bytes "b"))) s12 /\
    sent s2 = sent s12 /\
    cy_retarget_io_stdout_prev_char s2 = cy_retarget_io_stdout_prev_char s12.
Proof.
  split; [exact lock_grants_ready|].
  apply (write_in_two_calls rtos_build 1 (bytes "a" ++ [CR]) (LF :: bytes "b") ready).
  - exact lock_grants_ready.
  - intros _. split; [right; reflexivity|split; reflexivity].
Defined.

(** * More of the module: what translation does to the line *)

Section Translation.
Context {K : Type} `{CyRtos K}.
Implicit Types (s : state K) (c : byte) (cfg : config).

Lemma sent_after_bytes_content cfg : forall (l : list byte) s,
  exists out,
    sent (after_bytes cfg l s) = sent s ++ out /\
    List.filter not_cr out = List.filter not_cr l /\
    (length l <= length out <= 2 * length l)%nat.
Proof.
  induction l as [|c l IH]; intros s.
  - exists []. simpl. rewrite app_nil_r. repeat split; lia.
  - change (after_bytes cfg (c :: l) s) with (after_bytes cfg l (after_char cfg c s)).
    destruct (IH (after_char cfg c s)) as (out & E & Hf & Hl).
    rewrite E, sent_after_char.
    destruct (CY_RETARGET_IO_CONVERT_LF_TO_CRLF cfg && Byte.eqb c LF
              && negb (Byte.eqb (cy_retarget_io_stdout_prev_char s) CR)) eqn:Eb.
    + exists ([CR; c] ++ out). rewrite <- app_assoc. split; [reflexivity|].
      split; [|simpl; lia].
      change ([CR; c] ++ out) with (CR :: c :: out).
      simpl. now rewrite Hf.
    + exists ([c] ++ out). rewrite <- app_assoc. split; [reflexivity|].
      split; [|simpl; lia]. simpl. now rewrite Hf.
Qed.

(** X9: translation only ever adds carriage returns: what a write puts on
    the line is its input with some carriage returns inserted, at most one
    per byte; with every carriage return dropped, output and input are the
    same. *)
Theorem write_adds_only_carriage_returns cfg fd (buf : list byte) (len : Z) s :
  lock_grants cfg s ->
  0 <= len <= Z.of_nat (length buf) ->
  exists s' out,
    _write cfg fd (Some buf) len s = Returns len s' /\
    sent s' = sent s ++ out /\
    List.filter not_cr out = List.filter not_cr (firstn (Z.to_nat len) buf) /\
    len <= Z.of_nat (length out) <= 2 * len.
Proof.
  intros Hg Hlen.
  destruct (sent_after_bytes_content cfg (firstn (Z.to_nat len) buf) s)
    as (out & E & Hf & Hl).
  exists (after_lock cfg (after_bytes cfg (firstn (Z.to_nat len) buf) s)), out.
  split; [now apply write_run|]. rewrite sent_after_lock.
  rewrite length_take in Hl. repeat split; auto; lia.
Qed.

Lemma sent_after_bytes_formed cfg : forall (l : list byte) s,
  CY_RETARGET_IO_CONVERT_LF_TO_CRLF cfg = true ->
  crlf_ok (cy_retarget_io_stdout_prev_char s) l = true ->
  sent (after_bytes cfg l s) = sent s ++ l.
Proof.
  induction l as [|c l IH]; intros s Hc Hok.
  - simpl. now rewrite app_nil_r.
  - change (after_bytes cfg (c :: l) s) with (after_bytes cfg l (after_char cfg c s)).
    simpl in Hok. apply Bool.andb_true_iff in Hok as [Hc1 Hc2].
    rewrite IH, sent_after_char; auto.
    + assert (E : Byte.eqb c LF
                  && negb (Byte.eqb (cy_retarget_io_stdout_prev_char s) CR) = false).
      { destruct (Byte.eqb c LF), (Byte.eqb (cy_retarget_io_stdout_prev_char s) CR);
          simpl in *; congruence. }
      rewrite Hc. simpl. rewrite E. now rewrite <- app_assoc.
    + now rewrite prev_after_char.
Qed.

(** X10: input that already has a carriage return before every line feed
    reaches the line unchanged, on either build: translation applied to
    translated text adds nothing. *)
Theorem formed_input_passes_unchanged cfg fd (buf : list byte) (len : Z) s :
  lock_grants cfg s ->
  0 <= len <= Z.of_nat (length buf) ->
  prev_synced s ->
  crlf_ok (last_sent s) (firstn (Z.to_nat len) buf) = true ->
  exists s',
    _write cfg fd (Some buf) len s = Returns len s' /\
    sent s' = sent s ++ firstn (Z.to_nat len) buf.
Proof.
  intros Hg Hlen Hs Hok. eexists. split; [now apply write_run|].
  rewrite sent_after_lock.
  destruct (CY_RETARGET_IO_CONVERT_LF_TO_CRLF cfg) eqn:Hc.
  - apply sent_after_bytes_formed; [exact Hc|]. now rewrite Hs.
  - apply sent_after_bytes_plain. now left.
Qed.

Lemma uart_after_char cfg c s :
  exists out,
    calls (uart (after_char cfg c s))
    = calls (uart s) ++ map (Transmit (cy_retarget_io_uart_obj s)) out /\
    rx_line (uart (after_char cfg c s)) = rx_line (uart s) /\
    clock (uart (after_char cfg c s)) = clock (uart s) /\
    cy_retarget_io_uart_obj (after_char cfg c s) = cy_retarget_io_uart_obj s.
Proof.
  unfold after_char.
  destruct (CY_RETARGET_IO_CONVERT_LF_TO_CRLF cfg); simpl;
    destruct (Byte.eqb c LF && negb (Byte.eqb (cy_retarget_io_stdout_prev_char s) CR));
    simpl;
    first [ exists [CR; c]; simpl; rewrite <- app_assoc; now auto
          | exists [c]; simpl; now auto ].
Qed.

Lemma uart_after_bytes cfg : forall (l : list byte) s,
  exists out,
    calls (uart (after_bytes cfg l s))
    = calls (uart s) ++ map (Transmit (cy_retarget_io_uart_obj s)) out /\
    rx_line (uart (after_bytes cfg l s)) = rx_line (uart s) /\
    clock (uart (after_bytes cfg l s)) = clock (uart s) /\
    cy_retarget_io_uart_obj (after_bytes cfg l s) = cy_retarget_io_uart_obj s.
Proof.
  induction l as [|c l IH]; intros s.
  - exists []. simpl. now rewrite app_nil_r.
  - change (after_bytes cfg (c :: l) s) with (after_bytes cfg l (after_char cfg c s)).
    destruct (IH (after_char cfg c s)) as (out2 & E2 & Hr2 & Hc2 & Hh2).
    destruct (uart_after_char cfg c s) as (out1 & E1 & Hr1 & Hc1 & Hh1).
    exists (out1 ++ out2). rewrite E2, E1, Hh1, map_app, <- app_assoc.
    repeat split; congruence.
Qed.

(** X11: the only driver calls a write makes are transmissions on the
    channel the session is bound to, one per byte sent: it never reads the
    status word, never takes a byte off the receive line, and leaves the
    handle as it was. *)
Theorem write_only_transmits cfg fd (buf : list byte) (len : Z) s :
  lock_grants cfg s ->
  0 <= len <= Z.of_nat (length buf) ->
  exists s' out,
    _write cfg fd (Some buf) len s = Returns len s' /\
    calls (uart s') = calls (uart s) ++ map (Transmit (cy_retarget_io_uart_obj s)) out /\
    rx_line (uart s') = rx_line (uart s) /\
    cy_retarget_io_uart_obj s' = cy_retarget_io_uart_obj s.
Proof.
  intros Hg Hlen.
  destruct (uart_after_bytes cfg (firstn (Z.to_nat len) buf) s) as (out & E & Hr & _ & Hh).
  exists (after_lock cfg (after_bytes cfg (firstn (Z.to_nat len) buf) s)), out.
  split; [now apply write_run|].
  unfold after_lock. destruct (RTOS_AWARE cfg); simpl; auto.
Qed.

End Translation.

Lemma write_adds_only_carriage_returns_witness :
  lock_grants rtos_build ready /\
  0 <= 3 <= Z.of_nat (length (LF :: CR :: LF :: bytes "x")) /\
  exists s' out,
    _write rtos_build 1 (Some (LF :: CR :: LF :: bytes "x")) 3 ready = Returns 3 s' /\
    sent s' = sent ready ++ out /\
    List.filter not_cr out
    = List.filter not_cr (firstn (Z.to_nat 3) (LF :: CR :: LF :: bytes "x")) /\
    3 <= Z.of_nat (length out) <= 2 * 3.
Proof.
  split; [exact lock_grants_ready|]. split; [simpl; lia|].
  apply (write_adds_only_carriage_returns rtos_build 1 (LF :: CR :: LF :: bytes "x") 3 ready).
  - exact lock_grants_ready.
  - simpl; lia.
Defined.

Lemma formed_input_passes_unchanged_witness :
  lock_grants rtos_build ready /\
  prev_synced ready /\
  crlf_ok (last_sent ready) (firstn (Z.to_nat 4) (bytes "a" ++ CR :: LF :: bytes "b")) = true /\
  exists s',
    _write rtos_build 1 (Some (bytes "a" ++ CR :: LF :: bytes "b")) 4 ready = Returns 4 s' /\
    sent s' = sent ready ++ firstn (Z.to_nat 4) (bytes "a" ++ CR :: LF :: bytes "b").
Proof.
  split; [exact lock_grants_ready|]. split; [reflexivity|]. split; [reflexivity|].
  apply (formed_input_passes_unchanged rtos_build 1 (bytes "a" ++ CR :: LF :: bytes "b") 4 ready).
  - exact lock_grants_ready.
  - simpl; lia.
  - reflexivity.
  - reflexivity.
Defined.

Lemma write_only_transmits_witness :
  lock_grants rtos_build ready /\
  exists s' out,
    _write rtos_build 1 (Some (bytes "a" ++ [LF])) 2 ready = Returns 2 s' /\
    calls (uart s') = calls (uart ready) ++ map (Transmit (cy_retarget_io_uart_obj ready)) out /\
    rx_line (uart s') = rx_line (uart ready) /\
    cy_retarget_io_uart_obj s' = cy_retarget_io_uart_obj ready.
Proof.
  split; [exact lock_grants_ready|].
  apply (write_only_transmits rtos_build 1 (bytes "a" ++ [LF]) 2 ready).
  - exact lock_grants_ready.
  - simpl; lia.
Defined.

(** * More of the module: the line over a whole session *)

Section SessionLines.
Context {K : Type} `{CyRtos K}.
Implicit Types (s : state K) (c : byte) (cfg : config).

Lemma write_loop_keeps cfg (P : state K -> Prop) :
  (forall c s, P s -> P (after_char cfg c s)) ->
  forall fuel ptr nChars len s s',
    P s ->
    final_state (write_loop cfg fuel ptr nChars len CY_RSLT_SUCCESS s) = Some s' ->
    P s'.
Proof.
  intros Hchar.
  induction fuel as [|fuel IH]; intros ptr nChars len s s' Hs E; simpl in E;
    destruct (nChars <? len); try (inversion E; subst; exact Hs); try discriminate E.
  destruct ptr as [|c ptr]; [discriminate E|].
  unfold bind at 1 in E. rewrite write_char_run in E. simpl in E.
  unfold bind at 1 in E.
  apply (IH ptr (nChars + 1) len (after_char cfg c s)); [now apply Hchar|].
  unfold after_char.
  destruct (CY_RETARGET_IO_CONVERT_LF_TO_CRLF cfg); exact E.
Qed.

Lemma write_keeps cfg (P : state K -> Prop) fd ptr len s s' :
  (forall s1 s2,
     cy_retarget_io_stdout_prev_char s2 = cy_retarget_io_stdout_prev_char s1 ->
     sent s2 = sent s1 -> P s1 -> P s2) ->
  (forall c s1, P s1 -> P (after_char cfg c s1)) ->
  P s ->
  final_state (_write cfg fd ptr len s) = Some s' ->
  P s'.
Proof.
  intros Hsteady Hchar Hs E.
  assert (Hst : forall A (m : M (state K) A) s1 s2,
             steady m -> final_state (m s1) = Some s2 -> P s1 -> P s2).
  { intros A m s1 s2 Hm Em Hp. destruct (Hm s1 s2 Em). eauto. }
  destruct ptr as [buf|]; [|inversion E; subst; exact Hs].
  unfold _write in E. unfold bind at 1 in E.
  destruct (cy_retarget_io_mutex_acquire cfg s) as [u sa| sa | sa | sa | |] eqn:Ea;
    simpl in E; try discriminate E;
    try (inversion E; subst;
         apply (Hst _ _ s _ (steady_acquire cfg)); [now rewrite Ea|exact Hs]).
  assert (Hsa : P sa).
  { apply (Hst _ _ s _ (steady_acquire cfg)); [now rewrite Ea|exact Hs]. }
  unfold bind at 1 in E.
  destruct (write_loop cfg (Z.to_nat len) buf 0 len CY_RSLT_SUCCESS sa)
    as [n sb| sb | sb | sb | |] eqn:Eb; simpl in E; try discriminate E;
    try (inversion E; subst;
         eapply (write_loop_keeps cfg P Hchar _ _ _ _ sa _ Hsa); now rewrite Eb).
  assert (Hsb : P sb).
  { eapply (write_loop_keeps cfg P Hchar _ _ _ _ sa _ Hsa). now rewrite Eb. }
  apply (Hst _ (bind (cy_retarget_io_mutex_release cfg) (fun _ => ret n)) sb s');
    [|exact E|exact Hsb].
  apply steady_bind; [apply steady_release|intros _; apply steady_ret].
Qed.

Lemma reachable_keeps cfg (P : state K -> Prop) s0 s :
  (forall s1 s2,
     cy_retarget_io_stdout_prev_char s2 = cy_retarget_io_stdout_prev_char s1 ->
     sent s2 = sent s1 -> P s1 -> P s2) ->
  (forall c s1, P s1 -> P (after_char cfg c s1)) ->
  P s0 ->
  reachable cfg s0 s ->
  P s.
Proof.
  intros Hsteady Hchar H0 Hr.
  assert (Hst : forall A (m : M (state K) A) s1 s2,
             steady m -> final_state (m s1) = Some s2 -> P s1 -> P s2).
  { intros A m s1 s2 Hm Em Hp. destruct (Hm s1 s2 Em). eauto. }
  induction Hr as [|s c s' Hr IH Hcall]; [exact H0|].
  destruct c as [base|fd ptr len|fd ptr len| |]; simpl in Hcall.
  - exact (Hst _ _ _ _ (steady_init cfg base) Hcall IH).
  - exact (write_keeps cfg P fd ptr len s s' Hsteady Hchar IH Hcall).
  - exact (Hst _ _ _ _ (steady_read fd ptr len) Hcall IH).
  - exact (Hst _ _ _ _ steady_is_tx_active Hcall IH).
  - exact (Hst _ _ _ _ (steady_deinit cfg) Hcall IH).
Qed.

Lemma last_cons : forall (l : list byte) (b d : byte),
  List.last (b :: l) d = List.last l b.
Proof.
  induction l as [|a l IH]; intros b d; [reflexivity|].
  change (List.last (b :: a :: l) d) with (List.last (a :: l) d).
  now rewrite !IH.
Qed.

Lemma crlf_ok_app : forall (l m : list byte) (p : byte),
  crlf_ok p (l ++ m) = crlf_ok p l && crlf_ok (List.last l p) m.
Proof.
  induction l as [|c l IH]; intros m p; [reflexivity|].
  rewrite last_cons. simpl. rewrite IH, Bool.andb_assoc. reflexivity.
Qed.

Lemma crlf_ok_spec : forall (pre : list byte) (p : byte) post,
  crlf_ok p (pre ++ LF :: post) = true ->
  (pre = [] /\ p = CR) \/ exists pre', pre = pre' ++ [CR].
Proof.
  induction pre as [|c pre IH]; intros p post Hok.
  - left. simpl in Hok. apply Bool.andb_true_iff in Hok as [Hc _].
    simpl in Hc. split; [reflexivity|]. now apply Byte.byte_dec_bl.
  - right. simpl in Hok. apply Bool.andb_true_iff in Hok as [_ Hok].
    destruct (IH c post Hok) as [[-> ->]|[pre' ->]].
    + exists []. reflexivity.
    + exists (c :: pre'). reflexivity.
Qed.

(** X12: on a build with translation, start from a session that has sent
    nothing and make any calls at all (initialise, write, read, query,
    shut down), ended however they end: the previous-character state is
    always the last byte on the line, and every line feed on the line
    stands right after a carriage return. *)
Theorem line_feeds_follow_carriage_returns cfg s0 s :
  CY_RETARGET_IO_CONVERT_LF_TO_CRLF cfg = true ->
  prev_synced s0 ->
  sent s0 = [] ->
  reachable cfg s0 s ->
  prev_synced s /\
  forall pre post, sent s = pre ++ LF :: post -> exists pre', pre = pre' ++ [CR].
Proof.
  intros Hc Hs0 Hempty Hr.
  assert (HP : prev_synced s /\ crlf_ok x00 (sent s) = true).
  { apply (reachable_keeps cfg
             (fun s => prev_synced s /\ crlf_ok x00 (sent s) = true) s0 s);
      [| |now rewrite Hempty|exact Hr].
    - intros s1 s2 Hp Hl [Hsy Hok]. unfold prev_synced, last_sent in *.
      rewrite Hp, Hl. auto.
    - intros c s1 [Hsy Hok]. split; [now apply synced_after_char|].
      rewrite sent_after_char, Hc, crlf_ok_app, Hok, Hsy. unfold last_sent. simpl.
      destruct (Byte.eqb c LF) eqn:El, (Byte.eqb (List.last (sent s1) x00) CR) eqn:Ep;
        simpl; rewrite ?El, ?Ep; reflexivity. }
  destruct HP as [Hsy Hok]. split; [exact Hsy|].
  intros pre post E. rewrite E in Hok.
  destruct (crlf_ok_spec pre x00 post Hok) as [[_ Hx]|Hx]; [discriminate Hx|exact Hx].
Qed.

End SessionLines.

Lemma line_feeds_follow_carriage_returns_witness :
  let s0 := boot (mkKernel 1 0 false false) 8000000 (quiet_line []) in
  let s1 := mkState true (mkKernel 0 1 true false) 0x48000000 x00 8000000
                    (quiet_line []) in
  let s2 := mkState true (mkKernel 0 1 true false) 0x48000000 LF 8000000
                    (mkUsic [] [Transmit 0x48000000 CR; Transmit 0x48000000 LF]
                            0 (Some 0)) in
  reachable rtos_build s0 s2 /\
  prev_synced s2 /\
  forall pre post, sent s2 = pre ++ LF :: post -> exists pre', pre = pre' ++ [CR].
Proof.
  intros s0 s1 s2.
  assert (Hr : reachable rtos_build s0 s2).
  { apply (reach_call rtos_build s0 s1 (CallWrite 1 (Some [LF]) 1)); [|reflexivity].
    apply (reach_call rtos_build s0 s0 (CallInit 0x48000000)); [|reflexivity].
    apply reach_start. }
  split; [exact Hr|].
  apply (line_feeds_follow_carriage_returns rtos_build s0 s2); auto; reflexivity.
Defined.

(** * More of the module: the hooks of the ARM runtime *)

Section ArmFacts.
Context {K : Type} `{CyRtos K}.
Implicit Types (s : state K) (c : byte) (cfg : config).

Lemma char_of_int_of_char c : char_of_int (int_of_char c) = c.
Proof.
  unfold char_of_int, int_of_char.
  pose proof (Byte.to_N_bounded c) as Hb.
  rewrite Z.mod_small by lia. rewrite N2Z.id, Byte.of_to_N. reflexivity.
Qed.

Lemma int_of_char_range c : 0 <= int_of_char c < 256.
Proof. unfold int_of_char. pose proof (Byte.to_N_bounded c). lia. Qed.

Lemma write_cr_generic cfg c s :
  write_cr cfg c CY_RSLT_SUCCESS s =
  Returns CY_RSLT_SUCCESS
    (if CY_RETARGET_IO_CONVERT_LF_TO_CRLF cfg && Byte.eqb c LF
        && negb (Byte.eqb (cy_retarget_io_stdout_prev_char s) CR)
     then after_putchar CR s else s).
Proof.
  unfold write_cr. run.
  destruct (CY_RETARGET_IO_CONVERT_LF_TO_CRLF cfg && Byte.eqb c LF
            && negb (Byte.eqb (cy_retarget_io_stdout_prev_char s) CR));
    reflexivity.
Qed.

Lemma fputc_run EOF cfg ch s :
  fputc EOF cfg ch s = Returns ch (after_char cfg (char_of_int ch) s).
Proof.
  unfold fputc. unfold bind at 1. rewrite write_cr_generic.
  unfold bind at 1. unfold write_byte. simpl. unfold bind at 1.
  unfold cy_retarget_io_putchar, bind, XMC_UART_CH_Transmit, ret. simpl.
  unfold after_char.
  destruct (CY_RETARGET_IO_CONVERT_LF_TO_CRLF cfg); reflexivity.
Qed.


Lemma fputc_each_run EOF cfg : forall (l : list byte) s,
  fputc_each EOF cfg (map int_of_char l) s = Returns tt (after_bytes cfg l s).
Proof.
  induction l as [|c l IH]; intros s; [reflexivity|].
  simpl. unfold bind. rewrite fputc_run, char_of_int_of_char. apply IH.
Qed.

(** X14: a string handed to [fputc] character by character leaves the
    state the write hook leaves when given the whole string at once, on a
    build without the mutex layer (every ARM build is one): the runtimes
    put the same bytes on the line. *)
Theorem fputc_each_is_write EOF cfg fd (buf : list byte) s :
  RTOS_AWARE cfg = false ->
  exists s',
    _write cfg fd (Some buf) (Z.of_nat (length buf)) s
    = Returns (Z.of_nat (length buf)) s' /\
    fputc_each EOF cfg (map int_of_char buf) s = Returns tt s'.
Proof.
  intros HR. exists (after_bytes cfg buf s). split; [|apply fputc_each_run].
  rewrite write_run; [| |lia].
  - unfold after_lock. rewrite HR, Nat2Z.id, firstn_all. reflexivity.
  - unfold lock_grants. rewrite HR. discriminate.
Qed.

(** X15: [fgetc] takes exactly one byte off the line and returns it as a
    value from 0 to 255, so never the negative [EOF]; it sends nothing;
    with the line silent it never comes back. *)
Theorem fgetc_takes_one_byte EOF :
  (forall c rest s,
     rx_line (uart s) = c :: rest ->
     exists s',
       fgetc EOF s = Returns (int_of_char c) s' /\
       0 <= int_of_char c < 256 /\
       (EOF < 0 -> int_of_char c <> EOF) /\
       char_of_int (int_of_char c) = c /\
       rx_line (uart s') = rest /\
       sent s' = sent s) /\
  (forall s, rx_line (uart s) = [] -> exists s', fgetc EOF s = Blocks s').
Proof.
  split.
  - intros c rest s Hrx.
    destruct (getchar_run [x00] 0%nat c rest s Hrx) as (s' & E & Hr & Hs); [simpl; lia|].
    exists s'. unfold fgetc, bind. rewrite E. simpl.
    pose proof (int_of_char_range c).
    repeat split; auto; try lia. apply char_of_int_of_char.
  - intros s Hrx. destruct (getchar_blocks [x00] 0%nat s Hrx) as (s' & E).
    exists s'. unfold fgetc, bind. now rewrite E.
Qed.

End ArmFacts.

Lemma fputc_each_is_write_witness :
  RTOS_AWARE raw_build = false /\
  exists s',
    _write raw_build 1 (Some (bytes "hi")) (Z.of_nat (length (bytes "hi"))) ready
    = Returns (Z.of_nat (length (bytes "hi"))) s' /\
    fputc_each (-1) raw_build (map int_of_char (bytes "hi")) ready = Returns tt s'.
Proof.
  split; [reflexivity|].
  apply (fputc_each_is_write (-1) raw_build 1 (bytes "hi") ready). reflexivity.
Defined.

Lemma fgetc_takes_one_byte_witness :
  let s := demo_session 8000000 (quiet_line (bytes "ok")) in
  rx_line (uart s) = "o"%byte :: bytes "k" /\
  exists s',
    fgetc (-1) s = Returns (int_of_char "o"%byte) s' /\
    0 <= int_of_char "o"%byte < 256 /\
    (-1 < 0 -> int_of_char "o"%byte <> -1) /\
    char_of_int (int_of_char "o"%byte) = "o"%byte /\
    rx_line (uart s') = bytes "k" /\
    sent s' = sent s.
Proof.
  intros s. split; [reflexivity|].
  apply (proj1 (fgetc_takes_one_byte (K := demo_kernel) (-1))). reflexivity.
Defined.

(** * More of the module: shutdown and initialisation at their edges *)

Section ShutdownEdges.
Context {K : Type} `{CyRtos K}.
Implicit Types (s : state K) (cfg : config).

Lemma deinit_loop_idle fuel t c s :
  0 < t ->
  tx_busy (uart s) = false ->
  deinit_loop (S fuel) t c s =
  Returns (t, c)
          (set_uart (log_call (GetStatusFlag (cy_retarget_io_uart_obj s)) (uart s)) s).
Proof.
  intros Ht Hidle. simpl deinit_loop. rewrite Z.gtb_ltb.
  destruct (Z.ltb_spec 0 t) as [_|]; [|lia].
  unfold bind. rewrite is_tx_active_run, Hidle. reflexivity.
Qed.

(** X16: with the transmitter idle, shutdown does not wait at all: it
    reads the status word once and goes straight on to destroy the
    mutex. *)
Theorem deinit_on_idle_line cfg s :
  tx_busy (uart s) = false ->
  cy_retarget_io_deinit cfg s =
  cy_retarget_io_mutex_deinit cfg
    (set_uart (log_call (GetStatusFlag (cy_retarget_io_uart_obj s)) (uart s)) s).
Proof.
  intros Hidle. unfold cy_retarget_io_deinit. unfold bind at 1. unfold get.
  unfold bind at 1. change 1000%nat with (S 999).
  rewrite deinit_loop_idle by (auto; lia).
  unfold bind at 1. unfold CY_ASSERT at 1. cbn [fst].
  change (negb (1000 =? 0)) with true.
  now destruct (NDEBUG cfg).
Qed.

Lemma deinit_loop_verdict : forall fuel t c s,
  0 <= t <= Z.of_nat fuel ->
  exists t' c' u',
    deinit_loop fuel t c s = Returns (t', c') (set_uart u' s) /\
    0 <= t' /\
    (t' <> 0 -> tx_busy u' = false) /\
    tx_busy_until u' = tx_busy_until (uart s).
Proof.
  induction fuel as [|fuel IH]; intros t c s Ht.
  - exists t, c, (uart s). simpl. rewrite Z.gtb_ltb.
    destruct (Z.ltb_spec 0 t); [simpl in Ht; lia|]. unfold ret.
    destruct s; repeat split; auto; lia.
  - simpl. rewrite Z.gtb_ltb. destruct (Z.ltb_spec 0 t) as [Hp|Hp].
    + unfold bind at 1. rewrite is_tx_active_run.
      destruct (tx_busy (uart s)) eqn:Hbusy; simpl.
      * unfold bind at 1. rewrite delay_loop_run.
        edestruct (IH (t - 1) 0) as (t' & c' & u' & E & H0 & Hv & Hb); [lia|].
        exists t', c', u'. rewrite E. simpl in *. auto.
      * eexists t, c, _. unfold ret. split; [reflexivity|]. simpl.
        repeat split; auto; try lia.
    + exists t, c, (uart s). unfold ret. destruct s; repeat split; auto; lia.
Qed.

(** X17: a debug build never destroys the mutex under a busy transmitter:
    if shutdown gets as far as the kernel call (it returns, or aborts on
    the kernel's refusal), the transmitter was idle at the last poll and
    still is. *)
Theorem deinit_debug_waits_for_idle cfg s s' :
  NDEBUG cfg = false ->
  cy_retarget_io_deinit cfg s = Returns tt s' \/ cy_retarget_io_deinit cfg s = Aborts s' ->
  tx_busy (uart s') = false.
Proof.
  intros Hn Hend.
  destruct (deinit_loop_verdict 1000 1000 (SystemCoreClock s / 1000) s)
    as (t' & c' & u' & E & H0 & Hv & _); [simpl; lia|].
  rewrite (deinit_after_loop cfg s _ _ E), Hn in Hend. cbn [fst negb andb] in Hend.
  destruct (Z.eqb_spec t' 0) as [Hz|Hz];
    [destruct Hend as [Hend|Hend]; discriminate Hend|].
  specialize (Hv Hz).
  destruct (RTOS_AWARE cfg).
  - destruct (negb (cy_retarget_io_mutex_initialized s));
      [destruct Hend as [Hend|Hend]; discriminate Hend|].
    cbv zeta in Hend.
    destruct (fst (cy_rtos_deinit_mutex (kernel s)) =? CY_RSLT_SUCCESS);
      destruct Hend as [Hend|Hend]; inversion Hend; exact Hv.
  - destruct Hend as [Hend|Hend]; inversion Hend; exact Hv.
Qed.

(** X18: a release build gives up instead: with the transmitter busy for
    ever, shutdown on an RTOS-aware build still calls the kernel to
    destroy the mutex, the transmitter being busy as before. *)
Theorem deinit_release_gives_up cfg s :
  NDEBUG cfg = true ->
  RTOS_AWARE cfg = true ->
  tx_busy_until (uart s) = None ->
  exists s',
    (cy_retarget_io_deinit cfg s = Returns tt s' \/
     cy_retarget_io_deinit cfg s = Aborts s') /\
    kernel s' = snd (cy_rtos_deinit_mutex (kernel s)) /\
    tx_busy (uart s') = true.
Proof.
  intros Hn HR Hb.
  destruct (deinit_loop_verdict 1000 1000 (SystemCoreClock s / 1000) s)
    as (t' & c' & u' & E & _ & _ & Hbu); [simpl; lia|].
  rewrite (deinit_after_loop cfg s _ _ E), Hn, HR. simpl. cbv zeta.
  assert (Hbusy : tx_busy u' = true) by (unfold tx_busy; now rewrite Hbu, Hb).
  destruct (fst (cy_rtos_deinit_mutex (kernel s)) =? CY_RSLT_SUCCESS);
    eexists; (split; [eauto|]); simpl; auto.
Qed.

(** X19: a failed initialisation leaves the flag clear while the handle
    is stored all the same; the next initialisation asks the kernel again
    and returns what the kernel says then; and a write made in between
    halts in the assertion on a debug build, with nothing sent. *)
Theorem init_failure_can_be_retried cfg base base' fd (buf : list byte) (len : Z) s :
  RTOS_AWARE cfg = true ->
  cy_retarget_io_mutex_initialized s = false ->
  fst (cy_rtos_init_mutex (kernel s)) <> CY_RSLT_SUCCESS ->
  exists s1 s2,
    cy_retarget_io_init cfg base s = Returns (fst (cy_rtos_init_mutex (kernel s))) s1 /\
    cy_retarget_io_mutex_initialized s1 = false /\
    cy_retarget_io_uart_obj s1 = base /\
    kernel s1 = snd (cy_rtos_init_mutex (kernel s)) /\
    cy_retarget_io_init cfg base' s1 = Returns (fst (cy_rtos_init_mutex (kernel s1))) s2 /\
    cy_retarget_io_mutex_initialized s2
    = (fst (cy_rtos_init_mutex (kernel s1)) =? CY_RSLT_SUCCESS) /\
    (NDEBUG cfg = false -> _write cfg fd (Some buf) len s1 = Halts s1).
Proof.
  intros HR Hf Hfail. apply Z.eqb_neq in Hfail. rewrite Z.eqb_sym in Hfail.
  set (s1 := set_kernel (snd (cy_rtos_init_mutex (kernel s))) (set_channel base s)).
  assert (E1 : cy_retarget_io_init cfg base s
               = Returns (fst (cy_rtos_init_mutex (kernel s))) s1).
  { rewrite init_run, HR, Hf. cbv zeta. now rewrite Hfail. }
  assert (Hf1 : cy_retarget_io_mutex_initialized s1 = false) by exact Hf.
  exists s1. eexists. split; [exact E1|]. split; [exact Hf1|].
  split; [reflexivity|]. split; [reflexivity|].
  split; [|split].
  - rewrite init_run, HR, Hf1. cbv zeta. reflexivity.
  - rewrite (Z.eqb_sym _ CY_RSLT_SUCCESS).
    destruct (CY_RSLT_SUCCESS =? fst (cy_rtos_init_mutex (kernel s1)));
      [reflexivity|exact Hf].
  - intros Hn. unfold _write, cy_retarget_io_mutex_acquire, CY_ASSERT.
    rewrite HR, Hn. run. now rewrite Hf.
Qed.

End ShutdownEdges.

Lemma deinit_on_idle_line_witness :
  tx_busy (uart ready) = false /\
  cy_retarget_io_deinit rtos_build ready =
  cy_retarget_io_mutex_deinit rtos_build
    (set_uart (log_call (GetStatusFlag (cy_retarget_io_uart_obj ready)) (uart ready)) ready).
Proof.
  split; [reflexivity|].
  apply (deinit_on_idle_line rtos_build ready). reflexivity.
Defined.

Lemma deinit_debug_waits_for_idle_witness :
  let s' := mkState true (mkKernel 0 1 false false) 0x48000000 x00 8000000
                    (mkUsic [] [GetStatusFlag 0x48000000] 0 (Some 0)) in
  NDEBUG rtos_build = false /\
  cy_retarget_io_deinit rtos_build ready = Returns tt s' /\
  tx_busy (uart s') = false.
Proof.
  intros s'.
  assert (E : cy_retarget_io_deinit rtos_build ready = Returns tt s') by reflexivity.
  split; [reflexivity|]. split; [exact E|].
  apply (deinit_debug_waits_for_idle rtos_build ready s'); [reflexivity|now left].
Defined.

Lemma deinit_release_gives_up_witness :
  let cfg := mkConfig true true true in
  let s := demo_session 144000000 stuck_line in
  NDEBUG cfg = true /\
  tx_busy_until (uart s) = None /\
  exists s',
    (cy_retarget_io_deinit cfg s = Returns tt s' \/
     cy_retarget_io_deinit cfg s = Aborts s') /\
    kernel s' = snd (cy_rtos_deinit_mutex (kernel s)) /\
    tx_busy (uart s') = true.
Proof.
  intros cfg s. split; [reflexivity|]. split; [reflexivity|].
  apply (deinit_release_gives_up cfg s); reflexivity.
Defined.

Lemma init_failure_can_be_retried_witness :
  let s := boot (mkKernel 0 0 false false) 8000000 (quiet_line []) in
  RTOS_AWARE rtos_build = true /\
  fst (cy_rtos_init_mutex (kernel s)) <> CY_RSLT_SUCCESS /\
  exists s1 s2,
    cy_retarget_io_init rtos_build 0x48000000 s
    = Returns (fst (cy_rtos_init_mutex (kernel s))) s1 /\
    cy_retarget_io_mutex_initialized s1 = false /\
    cy_retarget_io_uart_obj s1 = 0x48000000 /\
    kernel s1 = snd (cy_rtos_init_mutex (kernel s)) /\
    cy_retarget_io_init rtos_build 0x48000200 s1
    = Returns (fst (cy_rtos_init_mutex (kernel s1))) s2 /\
    cy_retarget_io_mutex_initialized s2
    = (fst (cy_rtos_init_mutex (kernel s1)) =? CY_RSLT_SUCCESS) /\
    (NDEBUG rtos_build = false -> _write rtos_build 1 (Some (bytes "hi")) 2 s1 = Halts s1).
Proof.
  intros s. split; [reflexivity|].
  assert (Hfail : fst (cy_rtos_init_mutex (kernel s)) <> CY_RSLT_SUCCESS) by discriminate.
  split; [exact Hfail|].
  apply (init_failure_can_be_retried rtos_build 0x48000000 0x48000200 1 (bytes "hi") 2 s);
    [reflexivity|reflexivity|exact Hfail].
Defined.

Section ShutdownDelay.
Context {K : Type} `{CyRtos K}.
Implicit Types (s : state K) (cfg : config).

Lemma deinit_loop_busy fuel t c s :
  0 < t ->
  tx_busy (uart s) = true ->
  deinit_loop (S fuel) t c s =
  deinit_loop fuel (t - 1) 0
    (set_uart
       (tick (spin_count c)
             (log_call (GetStatusFlag (cy_retarget_io_uart_obj s)) (uart s))) s).
Proof.
  intros Ht Hbusy. simpl deinit_loop. rewrite Z.gtb_ltb.
  destruct (Z.ltb_spec 0 t) as [_|]; [|lia].
  unfold bind at 1. rewrite is_tx_active_run, Hbusy.
  change (negb true) with false. cbv iota.
  unfold bind at 1. rewrite delay_loop_run. reflexivity.
Qed.

(** X20: when the transmitter is busy at entry and goes idle within the
    first delay, shutdown waits exactly one delay, of
    [SystemCoreClock / 1000] decrements, reads the status word twice, and
    goes on to destroy the mutex with the assertion satisfied. *)
Theorem deinit_waits_one_delay cfg s (t : Z) :
  1000 <= SystemCoreClock s < 2 ^ 32 ->
  tx_busy_until (uart s) = Some t ->
  clock (uart s) < t <= clock (uart s) + SystemCoreClock s / 1000 ->
  cy_retarget_io_deinit cfg s =
  cy_retarget_io_mutex_deinit cfg
    (set_uart
       (mkUsic (rx_line (uart s))
               (calls (uart s) ++ [GetStatusFlag (cy_retarget_io_uart_obj s);
                                   GetStatusFlag (cy_retarget_io_uart_obj s)])
               (clock (uart s) + SystemCoreClock s / 1000)
               (Some t)) s).
Proof.
  intros Hhz Hb Ht.
  assert (Hq : 1 <= SystemCoreClock s / 1000 < 2 ^ 32).
  { split; [apply Z.div_le_lower_bound; lia|].
    apply Z.div_lt_upper_bound; lia. }
  unfold cy_retarget_io_deinit. unfold bind at 1. unfold get.
  unfold bind at 1. change 1000%nat with (S (S 998)).
  rewrite deinit_loop_busy;
    [|lia|unfold tx_busy; rewrite Hb; apply Z.ltb_lt; lia].
  rewrite deinit_loop_idle;
    [|lia|unfold tx_busy; simpl; rewrite Hb, spin_count_small by lia;
          apply Z.ltb_ge; lia].
  unfold bind at 1. unfold CY_ASSERT at 1. cbn [fst].
  change (negb (1000 - 1 =? 0)) with true.
  rewrite spin_count_small by lia.
  unfold log_call, tick, set_uart. simpl. rewrite Hb, <- app_assoc. simpl.
  now destruct (NDEBUG cfg).
Qed.

End ShutdownDelay.

Lemma deinit_waits_one_delay_witness :
  let s := demo_session 8000000 (mkUsic [] [] 0 (Some 5000)) in
  1000 <= SystemCoreClock s < 2 ^ 32 /\
  clock (uart s) < 5000 <= clock (uart s) + SystemCoreClock s / 1000 /\
  cy_retarget_io_deinit rtos_build s =
  cy_retarget_io_mutex_deinit rtos_build
    (set_uart
       (mkUsic (rx_line (uart s))
               (calls (uart s) ++ [GetStatusFlag (cy_retarget_io_uart_obj s);
                                   GetStatusFlag (cy_retarget_io_uart_obj s)])
               (clock (uart s) + SystemCoreClock s / 1000)
               (Some 5000)) s).
Proof.
  intros s.
  assert (Hhz : 1000 <= SystemCoreClock s < 2 ^ 32) by (simpl; lia).
  assert (Ht : clock (uart s) < 5000 <= clock (uart s) + SystemCoreClock s / 1000)
    by (change (SystemCoreClock s / 1000) with 8000; simpl; lia).
  split; [exact Hhz|]. split; [exact Ht|].
  apply (deinit_waits_one_delay rtos_build s 5000 Hhz eq_refl Ht).
Defined.
